(** * A model of miniraw's raw-print listener (src/listener.rs) and settings

    The listener accepts TCP connections on 0.0.0.0:9100 and stores the
    bytes of each connection in a file `<timestamp>.spl` next to the
    executable.  The model keeps the structure of [start_raw_listener]:
    one session per accepted stream, run inside the [for_each] of the
    incoming stream, in a small state/error/panic monad over a world that
    holds the file system. *)

From Stdlib Require Import ZArith NArith Ascii String List Lia.
From stdpp Require Import base gmap strings list fin_maps.

Open Scope N_scope.

(** ** Data model *)

(** A path as its list of components ([PathBuf]); [join] appends one. *)
Definition path := list string.

Definition join (p : path) (name : string) : path := p ++ [name].

(** [Path::parent]: drop the last component; the empty path has none. *)
Definition parent (p : path) : option path :=
  match p with
  | [] => None
  | _ => Some (removelast p)
  end.

(** The last component, as used for the "Saved ... into <name>" line. *)
Definition last_component (p : path) : option string := last p.

Inductive io_error :=
| NotFound
| PermissionDenied
| StorageFull
| ConnectionReset
| NotConnected
| AddrInUse
| OtherError (code : N).

Inductive io_result (A : Type) :=
| Ok (a : A)
| Err (e : io_error).
Arguments Ok {A} a.
Arguments Err {A} e.

(** Log lines, one constructor per format string of listener.rs. *)
Inductive log_entry :=
| Info_started                           (* "Started listener on port 9100" *)
| Info_incoming (peer : string)          (* "Incoming connection from {}" *)
| Info_saved (n : N) (name : string)     (* "Saved {} bytes into {}" *)
| Warn_err (e : io_error).               (* warn!("{}", e) *)

(** A [SocketAddr]: four IPv4 octets and a port. *)
Definition socket_addr : Type := (N * N * N * N) * N.

(** The environment a session sees: the files on disk, the paths where
    creation is refused, whether the disk is full, what
    [env::current_exe] returns, and what [TcpListener::bind] returns for
    each address ([None] when the bind succeeds). *)
Record world := mk_world {
  files : gmap path (list Byte.byte);
  denied : gset path;
  disk_full : bool;
  current_exe : option path;
  bind_errors : socket_addr -> option io_error
}.

Definition with_files (w : world) (f : gmap path (list Byte.byte)) : world :=
  mk_world f (denied w) (disk_full w) (current_exe w) (bind_errors w).

(** One result of [poll_read] on the connection: the bytes put into the
    buffer (an empty read is end of stream), or an I/O error. *)
Inductive read_result :=
| ReadOk (data : list Byte.byte)
| ReadErr (e : io_error).

(** An accepted [TcpStream]: what [peer_addr] returns, the wall clock in
    whole seconds relative to the Unix epoch when the stream is handled,
    and the successive reads of the peer's data.  Running out of reads is
    the peer closing the connection ([poll_read] returning 0). *)
Record tcp_stream := mk_stream {
  peer_addr : io_result string;
  clock : Z;
  reads : list read_result
}.

(** ** The session monad: state (world and log), I/O errors and panics *)

Inductive outcome (A : Type) :=
| Done (a : A) (w : world) (log : list log_entry)
| Failed (e : io_error) (w : world) (log : list log_entry)
| Panicked (w : world) (log : list log_entry).
Arguments Done {A} a w log.
Arguments Failed {A} e w log.
Arguments Panicked {A} w log.

Definition M (A : Type) : Type := world -> list log_entry -> outcome A.

Global Instance M_ret : MRet M := fun A a w l => Done a w l.
Global Instance M_bind : MBind M := fun A B (k : A -> M B) (m : M A) w l =>
  match m w l with
  | Done a w' l' => k a w' l'
  | Failed e w' l' => Failed e w' l'
  | Panicked w' l' => Panicked w' l'
  end.

Definition throw {A} (e : io_error) : M A := fun w l => Failed e w l.
Definition panic {A} : M A := fun w l => Panicked w l.
Definition get_world : M world := fun w l => Done w w l.
Definition put_files (f : gmap path (list Byte.byte)) : M unit :=
  fun w l => Done tt (with_files w f) l.
Definition log_line (e : log_entry) : M unit := fun w l => Done tt w (l ++ [e]).

(** [Result::unwrap] and [Option::unwrap]: panic on the error case. *)
Definition unwrap {A} (r : io_result A) : M A :=
  match r with Ok a => mret a | Err _ => panic end.

Definition unwrap_option {A} (o : option A) : M A :=
  match o with Some a => mret a | None => panic end.

(** [.map_err(|e| { warn!("{}", e); e })]: log the error and pass it on. *)
Definition map_err_warn {A} (m : M A) : M A := fun w l =>
  match m w l with
  | Failed e w' l' => Failed e w' (l' ++ [Warn_err e])
  | r => r
  end.

(** ** File system operations *)

(** [Path::exists]: the metadata of the path can be read. *)
Definition fs_exists (p : path) : M bool :=
  w ← get_world; mret (bool_decide (is_Some (files w !! p))).

(** [File::create]: open for writing, creating the file or truncating an
    existing one; it fails only where creation is refused. *)
Definition fs_create (p : path) : M unit :=
  w ← get_world;
  if bool_decide (p ∈ denied w) then throw PermissionDenied
  else put_files (<[p := []]> (files w)).

(** [write_all] on the file handle: append at the end of what the handle
    wrote so far; on a full disk a non-empty write fails. *)
Definition fs_write_all (p : path) (bytes : list Byte.byte) : M unit :=
  w ← get_world;
  if disk_full w && negb (bool_decide (bytes = [])) then throw StorageFull
  else put_files (<[p := default [] (files w !! p) ++ bytes]> (files w)).

(** [std::fs::metadata(&filename).unwrap().len()]. *)
Definition fs_metadata_len (p : path) : M N :=
  w ← get_world;
  c ← unwrap_option (files w !! p);
  mret (N.of_nat (length c)).

(** [env::current_exe().ok().and_then(|p| p.parent().map(..))
     .unwrap_or_else(|| PathBuf::new())]. *)
Definition exe_dir_of (w : world) : path :=
  match current_exe w with
  | Some p => match parent p with Some d => d | None => [] end
  | None => []
  end.

Definition exe_dir : M path := w ← get_world; mret (exe_dir_of w).

(** ** File name allocation (listener.rs, lines 53-69) *)

(** [format!("{}", n)] for an unsigned integer: its decimal digits. *)
Fixpoint uint_digits (d : Decimal.uint) : string :=
  match d with
  | Decimal.Nil => EmptyString
  | Decimal.D0 d => String "0" (uint_digits d)
  | Decimal.D1 d => String "1" (uint_digits d)
  | Decimal.D2 d => String "2" (uint_digits d)
  | Decimal.D3 d => String "3" (uint_digits d)
  | Decimal.D4 d => String "4" (uint_digits d)
  | Decimal.D5 d => String "5" (uint_digits d)
  | Decimal.D6 d => String "6" (uint_digits d)
  | Decimal.D7 d => String "7" (uint_digits d)
  | Decimal.D8 d => String "8" (uint_digits d)
  | Decimal.D9 d => String "9" (uint_digits d)
  end.

Definition N_to_dec (n : N) : string := uint_digits (N.to_uint n).

(** [format!("{}.spl", timestamp)]. *)
Definition spl_name (timestamp : N) : string :=
  String.append (N_to_dec timestamp) ".spl".

Definition U64_LIMIT : N := 2 ^ 64.

(** Control value of the allocation [loop]. *)
Inductive loop_ctl :=
| Break (file : path)
| Continue (timestamp : N).

(** One iteration of the loop:
    [let file = <exe dir>.join(format!("{}.spl", timestamp));
     if !file.exists() { break file; } else { timestamp += 1; }]
    The increment of the u64 is overflow-checked (it panics past
    [u64::MAX]). *)
Definition alloc_body (timestamp : N) : M loop_ctl :=
  dir ← exe_dir;
  let file := join dir (spl_name timestamp) in
  e ← fs_exists file;
  if negb e then mret (Break file)
  else if bool_decide (timestamp + 1 < U64_LIMIT) then mret (Continue (timestamp + 1))
  else panic.

(** [alloc_iter d] runs up to [2^d] iterations of the loop. *)
Fixpoint alloc_iter (d : nat) (timestamp : N) : M loop_ctl :=
  match d with
  | O => alloc_body timestamp
  | S d' =>
      c ← alloc_iter d' timestamp;
      match c with
      | Break file => mret (Break file)
      | Continue t => alloc_iter d' t
      end
  end.

(** The whole [loop]: [2^64] iterations cover every u64 value, so the loop
    has broken out or panicked by then (the last branch is never taken,
    see [allocate_spec]). *)
Definition allocate (timestamp : N) : M path :=
  c ← alloc_iter 64 timestamp;
  match c with
  | Break file => mret file
  | Continue _ => panic
  end.

(** ** Reading the connection: [FileStream] (listener.rs, lines 12-40) *)

Definition CHUNK_SIZE : N := 32768.

(** [FileStream::poll] on one [poll_read] result: a non-empty read is a
    chunk, an empty one ends the stream. *)
Definition poll (r : read_result) : io_result (option (list Byte.byte)) :=
  match r with
  | ReadOk data => if bool_decide (0 < length data)%nat then Ok (Some data) else Ok None
  | ReadErr e => Err e
  end.

(** The [AsyncRead] contract: [poll_read] fills at most the buffer of
    [CHUNK_SIZE] bytes. *)
Definition reads_fit (rs : list read_result) : Prop :=
  Forall (fun r => match r with ReadOk d => N.of_nat (length d) <= CHUNK_SIZE | ReadErr _ => True end) rs.

(** [FileStream::new(reader).fold(file, |writer, bytes| writer.write_all(..))]. *)
Fixpoint fold_into_file (p : path) (rs : list read_result) : M unit :=
  match rs with
  | [] => mret tt
  | r :: rest =>
      match poll r with
      | Ok (Some bytes) => fs_write_all p bytes ;; fold_into_file p rest
      | Ok None => mret tt
      | Err e => throw e
      end
  end.

(** ** One connection: the body of the [for_each] closure (lines 48-93) *)

(** [time::SystemTime::now().duration_since(time::UNIX_EPOCH)]: an error
    for a clock before the epoch; [.as_secs()] keeps the whole seconds. *)
Definition duration_since_epoch (secs : Z) : io_result N :=
  if Z.ltb secs 0 then Err (OtherError 0) else Ok (Z.to_N secs).

Definition handle_stream (s : tcp_stream) : M unit :=
  peer ← unwrap (peer_addr s);
  log_line (Info_incoming peer);;
  timestamp ← unwrap (duration_since_epoch (clock s));
  filename ← allocate timestamp;
  map_err_warn (
    fs_create filename;;
    fold_into_file filename (reads s);;
    n ← fs_metadata_len filename;
    name ← unwrap_option (last_component filename);
    log_line (Info_saved n name)).

(** ** The listener (lines 42-98) *)

(** [let addr = "0.0.0.0:9100".parse().unwrap()]. *)
Definition LISTEN_ADDR : socket_addr := ((0, 0, 0, 0), 9100).

(** [TcpListener::bind(&addr)]. *)
Definition tcp_bind (addr : socket_addr) : M unit :=
  w ← get_world;
  match bind_errors w addr with Some e => throw e | None => mret tt end.

(** What binding the listener's address returns in world [w]. *)
Definition bind_error (w : world) : option io_error := bind_errors w LISTEN_ADDR.

(** [listener.incoming().for_each(..)]: the sessions run one after the
    other; an accept error or a failed session ends the iteration with
    that error. *)
Fixpoint for_each_incoming (incoming : list (io_result tcp_stream)) : M unit :=
  match incoming with
  | [] => mret tt
  | Err e :: _ => throw e
  | Ok s :: rest => handle_stream s;; for_each_incoming rest
  end.

Definition start_raw_listener (incoming : list (io_result tcp_stream)) : M unit :=
  map_err_warn (
    tcp_bind LISTEN_ADDR;;
    log_line Info_started;;
    for_each_incoming incoming).

(** ** Names for the reasoning below *)

(** The path the allocation loop probes for [timestamp] in world [w]. *)
Definition alloc_path (w : world) (timestamp : N) : path :=
  join (exe_dir_of w) (spl_name timestamp).

Definition occupied (w : world) (timestamp : N) : Prop :=
  is_Some (files w !! alloc_path w timestamp).

(** [t] is the first timestamp from [ts] on whose name has no file. *)
Definition first_free (w : world) (ts t : N) : Prop :=
  ts <= t < U64_LIMIT /\ files w !! alloc_path w t = None /\
  forall u, ts <= u < t -> occupied w u.

(** The chunks [FileStream] yields from a sequence of reads, and the error
    that ends it, if any. *)
Fixpoint stream_chunks (rs : list read_result) : list (list Byte.byte) * option io_error :=
  match rs with
  | [] => ([], None)
  | r :: rest =>
      match poll r with
      | Ok (Some bytes) => let '(cs, err) := stream_chunks rest in (bytes :: cs, err)
      | Ok None => ([], None)
      | Err e => ([], Some e)
      end
  end.

(** What the copy into [p] leaves behind when [p] holds [c] in [f]. *)
Definition copy_outcome (w0 : world) (f : gmap path (list Byte.byte)) (p : path)
    (c : list Byte.byte) (rs : list read_result) (l : list log_entry) : outcome unit :=
  let '(chs, err) := stream_chunks rs in
  if disk_full w0 && bool_decide (chs <> []) then Failed StorageFull (with_files w0 f) l
  else
    match err with
    | None => Done tt (with_files w0 (<[p := c ++ concat chs]> f)) l
    | Some e => Failed e (with_files w0 (<[p := c ++ concat chs]> f)) l
    end.

(** The end of a session whose name allocation picked timestamp [t]. *)
Definition session_outcome (w : world) (l : list log_entry) (peer : string) (t : N)
    (rs : list read_result) : outcome unit :=
  let p := alloc_path w t in
  let l1 := l ++ [Info_incoming peer] in
  let '(chs, err) := stream_chunks rs in
  if bool_decide (p ∈ denied w) then
    Failed PermissionDenied w (l1 ++ [Warn_err PermissionDenied])
  else if disk_full w && bool_decide (chs <> []) then
    Failed StorageFull (with_files w (<[p := []]> (files w))) (l1 ++ [Warn_err StorageFull])
  else
    let w' := with_files w (<[p := concat chs]> (files w)) in
    match err with
    | None => Done tt w' (l1 ++ [Info_saved (N.of_nat (length (concat chs))) (spl_name t)])
    | Some e => Failed e w' (l1 ++ [Warn_err e])
    end.

(** The world an outcome leaves behind, whatever its kind. *)
Definition outcome_world {A} (o : outcome A) : world :=
  match o with
  | Done _ w _ | Failed _ w _ | Panicked w _ => w
  end.

(** An accepted connection ([Ok]) as opposed to an accept error. *)
Definition is_accepted (r : io_result tcp_stream) : Prop :=
  match r with Ok _ => True | Err _ => False end.

(** ** Settings (src/settings.rs): the persisted discard flag *)

Module Settings.

Inductive win32_error :=
| ERROR_FILE_NOT_FOUND
| ERROR_ACCESS_DENIED
| ERROR_INVALID_PARAMETER
| ERROR_MORE_DATA.

Inductive win32_result (A : Type) :=
| WinOk (a : A)
| WinErr (e : win32_error).
Arguments WinOk {A} a.
Arguments WinErr {A} e.

(** An open registry key: its values as raw data. *)
Record reg_key := mk_key { values : gmap string (list Byte.byte) }.

(** [HKEY_CURRENT_USER]: its subkeys, the ones the user may not open, and
    the existing ones the user may open but not write. *)
Record registry := mk_registry {
  subkeys : gmap string reg_key;
  no_access : gset string;
  read_only : gset string
}.

Definition REG_KEY_NAME : string := "Software\MiniRAW NG".
Definition REG_VALUE_NAME : string := "discard".

Definition RegOpenKeyW (r : registry) (name : string) : win32_result reg_key :=
  if bool_decide (name ∈ no_access r) then WinErr ERROR_ACCESS_DENIED
  else match subkeys r !! name with
       | Some k => WinOk k
       | None => WinErr ERROR_FILE_NOT_FOUND
       end.

(** [RegQueryValueExW] with a data buffer of [size] bytes: the value's
    data when it fits, [ERROR_MORE_DATA] otherwise. *)
Definition RegQueryValueExW (k : reg_key) (name : string) (size : nat)
    : win32_result (list Byte.byte) :=
  match values k !! name with
  | Some d => if bool_decide (length d <= size)%nat then WinOk d else WinErr ERROR_MORE_DATA
  | None => WinErr ERROR_FILE_NOT_FOUND
  end.

(** The buffer [[0u8; 4]] after the query copied [d] to its start. *)
Definition fill_buffer (d : list Byte.byte) : list Byte.byte :=
  d ++ drop (length d) [Byte.x00; Byte.x00; Byte.x00; Byte.x00].

(** [u32::from_ne_bytes] on a little-endian target. *)
Definition u32_from_ne_bytes (data : list Byte.byte) : N :=
  fold_right (fun b acc => Byte.to_N b + 256 * acc) 0 data.

Record AppSettings := mk_settings { discard_flag_cell : bool }.

(** [AppSettings::load]. *)
Definition load (r : registry) : AppSettings :=
  let discard_flag :=
    match RegOpenKeyW r REG_KEY_NAME with
    | WinOk hkey =>
        match RegQueryValueExW hkey REG_VALUE_NAME 4 with
        | WinOk d => negb (N.eqb (u32_from_ne_bytes (fill_buffer d)) 0)
        | WinErr _ => false
        end
    | WinErr _ => false
    end in
  mk_settings discard_flag.

(** [AppSettings::discard_flag]: the atomic load. *)
Definition discard_flag (s : AppSettings) : bool := discard_flag_cell s.

End Settings.

(** ** Writing the settings back (src/settings.rs: [store], [set_discard_flag]) *)

Module SettingsWrite.
Import Settings.

(** An open key handle: the key's name and whether it was granted write
    access. *)
Record hkey := mk_hkey { hkey_name : string; hkey_writable : bool }.

(** [RegCreateKeyW]: open the subkey of [HKEY_CURRENT_USER] with
    [MAXIMUM_ALLOWED] access, creating it (with no values, writable) when
    it is missing; an existing read-only key opens without write access. *)
Definition RegCreateKeyW (r : registry) (name : string) : win32_result (registry * hkey) :=
  if bool_decide (name ∈ no_access r) then WinErr ERROR_ACCESS_DENIED
  else
    match subkeys r !! name with
    | Some _ => WinOk (r, mk_hkey name (negb (bool_decide (name ∈ read_only r))))
    | None =>
        WinOk (mk_registry (<[name := mk_key ∅]> (subkeys r)) (no_access r) (read_only r),
               mk_hkey name true)
    end.

(** [RegSetKeyValueW(hkey, PCWSTR::null(), value, REG_DWORD, data)]: set
    the value in the opened key itself; a handle without write access gets
    [ERROR_ACCESS_DENIED] and nothing is written. *)
Definition RegSetKeyValueW (r : registry) (h : hkey) (value : string)
    (data : list Byte.byte) : win32_result registry :=
  if hkey_writable h then
    let k := default (mk_key ∅) (subkeys r !! hkey_name h) in
    WinOk (mk_registry
             (<[hkey_name h := mk_key (<[value := data]> (values k))]> (subkeys r))
             (no_access r) (read_only r))
  else WinErr ERROR_ACCESS_DENIED.

Definition byte_of (n : N) : Byte.byte :=
  match Byte.of_N (n mod 256) with Some b => b | None => Byte.x00 end.

(** [u32::to_ne_bytes] on a little-endian target. *)
Definition u32_to_ne_bytes (n : N) : list Byte.byte :=
  [byte_of n; byte_of (n / 256); byte_of (n / 65536); byte_of (n / 16777216)].

Definition bool_as_u32 (b : bool) : N := if b then 1 else 0.

(** [AppSettings::store]: the registry after the call (the results of
    [RegSetKeyValueW] and [RegCloseKey] are ignored). *)
Definition store (s : AppSettings) (r : registry) : registry :=
  match RegCreateKeyW r REG_KEY_NAME with
  | WinOk (r', h) =>
      match RegSetKeyValueW r' h REG_VALUE_NAME
              (u32_to_ne_bytes (bool_as_u32 (discard_flag_cell s))) with
      | WinOk r'' => r''
      | WinErr _ => r'
      end
  | WinErr _ => r
  end.

(** [AppSettings::set_discard_flag]. *)
Definition set_discard_flag (s : AppSettings) (b : bool) : AppSettings := mk_settings b.

End SettingsWrite.

(** ** The main window (src/main.rs) *)

Module MainWin.
Import Settings SettingsWrite.

(** [RegQueryValueExW(hkey, value, lpReserved, None, data, Some(&mut size))]:
    [lpReserved] must be NULL ([None]); any other pointer makes the call
    fail with [ERROR_INVALID_PARAMETER] before the value is read. *)
Definition RegQueryValueExW_reserved (k : reg_key) (name : string) (reserved : option N)
    (size : nat) : win32_result (list Byte.byte) :=
  match reserved with
  | Some _ => WinErr ERROR_INVALID_PARAMETER
  | None => RegQueryValueExW k name size
  end.

(** [MainWindow::load_discard_flag]: store the registry value into the
    flag when key and value can be read, otherwise keep the flag.  The
    query passes [&mut 0] as [lpReserved]. *)
Definition load_discard_flag (r : registry) (current : bool) : bool :=
  match RegOpenKeyW r REG_KEY_NAME with
  | WinOk hkey =>
      match RegQueryValueExW_reserved hkey REG_VALUE_NAME (Some 0) 4 with
      | WinOk d => negb (N.eqb (u32_from_ne_bytes (fill_buffer d)) 0)
      | WinErr _ => current
      end
  | WinErr _ => current
  end.

(** [MainWindow::store_discard_flag]. *)
Definition store_discard_flag (flag : bool) (r : registry) : registry :=
  match RegCreateKeyW r REG_KEY_NAME with
  | WinOk (r', h) =>
      match RegSetKeyValueW r' h REG_VALUE_NAME (u32_to_ne_bytes (bool_as_u32 flag)) with
      | WinOk r'' => r''
      | WinErr _ => r'
      end
  | WinErr _ => r
  end.

(** [MainWindow::new]: the flag starts false and is then loaded. *)
Definition new_flag (r : registry) : bool := load_discard_flag r false.

Definition WM_CREATE : N := 1.
Definition WM_DESTROY : N := 2.
Definition WM_SIZE : N := 5.
Definition WM_SYSCOMMAND : N := 274.
Definition IDM_DISCARD_FILES : N := 1001.

Record menu_item := mk_item { item_id : N; item_text : string; item_checked : bool }.

(** [WindowGeometry]: optional position and size. *)
Record geometry := mk_geometry {
  gx : option Z; gy : option Z; gwidth : option Z; gheight : option Z
}.

Definition geometry_zero : geometry := mk_geometry (Some 0%Z) (Some 0%Z) (Some 0%Z) (Some 0%Z).

(** What the handler reaches: the shared flag, the registry, the system
    menu, the geometry of the child windows, the info lines logged, whether
    [PostQuitMessage] was called and the listener thread spawned, and
    whether building the edit control fails (an environment input). *)
Record state := mk_state {
  discard : bool;
  reg : registry;
  sys_menu : list menu_item;
  children : list geometry;
  info_log : list string;
  quit_posted : bool;
  listener_spawned : bool;
  edit_build_fails : bool
}.

Record window_message := mk_message { msg : N; wparam : N; lparam : Z }.

Inductive message_result := Processed | Ignored | Value (v : Z).

(** [CheckMenuItem(GetSystemMenu(..), item, MF_CHECKED / MF_UNCHECKED)]:
    the first item with that command id gets the check state. *)
Fixpoint check_menu_item (id : N) (flag : bool) (menu : list menu_item) : list menu_item :=
  match menu with
  | [] => []
  | it :: rest =>
      if N.eqb (item_id it) id then mk_item (item_id it) (item_text it) flag :: rest
      else it :: check_menu_item id flag rest
  end.

Definition bool_to_string (b : bool) : string := if b then "true" else "false".

Definition discard_line (b : bool) : string :=
  String.append "Discard received files: " (bool_to_string b).

(** The low and high words of [lparam] as the WM_SIZE arm reads them:
    [(lparam as u32) & 0xffff] and [(lparam as u32) >> 16], each as i32. *)
Definition lparam_as_u32 (lparam : Z) : Z := Z.land lparam (2 ^ 32 - 1).
Definition size_width (lparam : Z) : Z := Z.land (lparam_as_u32 lparam) 65535 - 12.
Definition size_height (lparam : Z) : Z := Z.shiftr (lparam_as_u32 lparam) 16 - 12.

(** [children()[0]] replaced by the moved window; indexing an empty
    vector panics ([None]). *)
Definition move_first_child (g : geometry) (cs : list geometry) : option (list geometry) :=
  match cs with
  | [] => None
  | _ :: rest => Some (g :: rest)
  end.

Section Handler.
Variable pkg_version : string.

Definition banner : string :=
  String.append ">>> MiniRAW NG " (String.append pkg_version " by Dmitry Pankratov").

(** [MainWindow::handle_message]; [None] is a panic ([unwrap] on a failed
    edit control, or indexing the children of a window without any). *)
Definition handle_message (m : window_message) (s : state) : option (message_result * state) :=
  if N.eqb (msg m) WM_SYSCOMMAND && N.eqb (wparam m) IDM_DISCARD_FILES then
    let flag := negb (discard s) in
    Some (Processed,
          mk_state flag
            (store_discard_flag flag (reg s))
            (check_menu_item IDM_DISCARD_FILES flag (sys_menu s))
            (children s)
            (info_log s ++ [discard_line flag])
            (quit_posted s) (listener_spawned s) (edit_build_fails s))
  else if N.eqb (msg m) WM_CREATE then
    (* the edit control is added to the children before it is created;
       a failed creation makes [.unwrap()] panic *)
    if edit_build_fails s then None
    else
      Some (Processed,
            mk_state (discard s) (reg s) (sys_menu s)
              (children s ++ [geometry_zero])
              (info_log s ++ [banner; discard_line (discard s)])
              (quit_posted s) true (edit_build_fails s))
  else if N.eqb (msg m) WM_SIZE then
    let gm := mk_geometry (Some 6%Z) (Some 6%Z)
                (Some (size_width (lparam m))) (Some (size_height (lparam m))) in
    match move_first_child gm (children s) with
    | Some cs =>
        Some (Processed,
              mk_state (discard s) (reg s) (sys_menu s) cs (info_log s)
                (quit_posted s) (listener_spawned s) (edit_build_fails s))
    | None => None
    end
  else if N.eqb (msg m) WM_DESTROY then
    Some (Processed,
          mk_state (discard s) (reg s) (sys_menu s) (children s) (info_log s)
            true (listener_spawned s) (edit_build_fails s))
  else Some (Ignored, s).

End Handler.

(** What [WinProxy::window_proc] returns for a handler result. *)
Inductive lresult := LResult (v : Z) | DefWindowProc.

Definition window_proc_result (r : message_result) : lresult :=
  match r with
  | Processed => LResult 0
  | Ignored => DefWindowProc
  | Value v => LResult v
  end.

(** [MainWindow::create]: the flag is set up by [MainWindow::new], and
    the builder appends the "Discard received files" item, checked as the flag, at the end of the
    system menu ([InsertMenuItemW] at [GetMenuItemCount]).  The WM_CREATE
    and WM_SIZE sent while the window is created, before the item is
    inserted, touch neither the menu nor the flag, so the item is placed
    in the initial state. *)
Definition create_state (r : registry) (menu0 : list menu_item) (edit_fails : bool) : state :=
  let flag := new_flag r in
  mk_state flag r (menu0 ++ [mk_item IDM_DISCARD_FILES "Discard received files" flag])
    [] [] false false edit_fails.

(** The message loop delivering [ms] in order; [None] once a handler panics. *)
Fixpoint run (pkg_version : string) (ms : list window_message) (s : state) : option state :=
  match ms with
  | [] => Some s
  | m :: rest =>
      match handle_message pkg_version m s with
      | Some (_, s') => run pkg_version rest s'
      | None => None
      end
  end.

(** The check state of the first item with command id [id]. *)
Fixpoint menu_check (id : N) (menu : list menu_item) : option bool :=
  match menu with
  | [] => None
  | it :: rest => if N.eqb (item_id it) id then Some (item_checked it) else menu_check id rest
  end.

(** The "Discard received files" system command. *)
Definition is_toggle (m : window_message) : Prop :=
  msg m = WM_SYSCOMMAND /\ wparam m = IDM_DISCARD_FILES.

(** The check mark of the menu item shows the flag in memory. *)
Definition menu_consistent (s : state) : Prop :=
  menu_check IDM_DISCARD_FILES (sys_menu s) = Some (discard s).

(** The settings key can be opened, or created, with write access. *)
Definition key_writable (r : registry) : Prop :=
  (REG_KEY_NAME ∉ no_access r) /\ REG_KEY_NAME ∉ read_only r.

(** The flag [AppSettings::load] reads from the registry is the flag in
    memory. *)
Definition flag_persisted (s : state) : Prop :=
  Settings.discard_flag (load (reg s)) = discard s.

End MainWin.

(** ** UTF-16 strings (src/util.rs: [utf16z!]) *)

(** A Rust [&str] is a sequence of Unicode scalar values, here as [Z]. *)
Module Utf16.

Definition is_scalar (c : Z) : bool :=
  (0 <=? c)%Z && (c <? 1114112)%Z && negb ((55296 <=? c)%Z && (c <=? 57343)%Z).

(** [char::encode_utf16]: one unit below 0x10000, else a surrogate pair
    [(c >> 10) | 0xD800], [(c & 0x3FF) | 0xDC00] of [c - 0x10000]. *)
Definition encode_utf16_char (c : Z) : list Z :=
  if (c <=? 65535)%Z then [c]
  else let c' := (c - 65536)%Z in
       [Z.lor (Z.shiftr c' 10) 55296; Z.lor (Z.land c' 1023) 56320].

(** [str::encode_utf16]. *)
Definition encode_utf16 (s : list Z) : list Z := flat_map encode_utf16_char s.

(** [utf16z!(s)]: [s.encode_utf16().chain([0]).collect::<Vec<_>>()]. *)
Definition utf16z (s : list Z) : list Z := encode_utf16 s ++ [0%Z].

Definition REPLACEMENT_CHARACTER : Z := 65533.

Definition is_utf16_surrogate (u : Z) : bool := (55296 <=? u)%Z && (u <=? 57343)%Z.

(** [String::from_utf16_lossy]: [char::decode_utf16] with each error
    replaced by U+FFFD; a leading surrogate not followed by a trailing one
    is an error and the unit after it is decoded again. *)
Fixpoint decode_utf16_lossy (us : list Z) : list Z :=
  match us with
  | [] => []
  | u :: rest =>
      if negb (is_utf16_surrogate u) then u :: decode_utf16_lossy rest
      else if (56320 <=? u)%Z then REPLACEMENT_CHARACTER :: decode_utf16_lossy rest
      else
        match rest with
        | [] => [REPLACEMENT_CHARACTER]
        | u2 :: rest' =>
            if (u2 <? 56320)%Z || (57343 <? u2)%Z then
              REPLACEMENT_CHARACTER :: decode_utf16_lossy rest
            else
              (Z.lor (Z.shiftl (Z.land u 1023) 10) (Z.land u2 1023) + 65536)%Z
                :: decode_utf16_lossy rest'
        end
  end.

(** What a Windows API reads from a [PCWSTR]: the units before the first
    0. *)
Fixpoint upto_nul (us : list Z) : list Z :=
  match us with
  | [] => []
  | u :: rest => if (u =? 0)%Z then [] else u :: upto_nul rest
  end.

(** The scalar values of an ASCII literal. *)
Definition string_scalars (s : string) : list Z :=
  map (fun a => Z.of_N (N_of_ascii a)) (list_ascii_of_string s).

End Utf16.

(** ** The window logger (src/ui/win32/logger.rs) *)

Module Logger.
Import Utf16.

(** [log::Level] and [log::LevelFilter] with their order. *)
Inductive level := Error | Warn | Info | Debug | Trace.

Inductive level_filter := Off | FilterError | FilterWarn | FilterInfo | FilterDebug | FilterTrace.

Definition level_rank (l : level) : N :=
  match l with Error => 1 | Warn => 2 | Info => 3 | Debug => 4 | Trace => 5 end.

Definition filter_rank (f : level_filter) : N :=
  match f with
  | Off => 0 | FilterError => 1 | FilterWarn => 2 | FilterInfo => 3
  | FilterDebug => 4 | FilterTrace => 5
  end.

(** [Display for Level]. *)
Definition level_name (l : level) : string :=
  match l with
  | Error => "ERROR" | Warn => "WARN" | Info => "INFO" | Debug => "DEBUG" | Trace => "TRACE"
  end.

Record log_record := mk_record {
  rec_level : level;
  module_path : option string;
  args : list Z
}.

(** The local time: [month] is [time.month() as u8], January being 1. *)
Record datetime := mk_datetime {
  year : Z; month : N; day : N; hour : N; minute : N; second : N; nanosecond : N
}.

(** [WindowLogger::is_our_path]. *)
Definition is_our_path (path : option string) : bool :=
  match path with Some p => String.prefix "miniraw" p | None => false end.

(** [WindowLogger::enabled]: [metadata.level() <= log::max_level()]. *)
Definition enabled (max_level : level_filter) (l : level) : bool :=
  N.leb (level_rank l) (filter_rank max_level).

Fixpoint zeros (n : nat) : string :=
  match n with O => EmptyString | S n' => String "0" (zeros n') end.

(** [{:0w}] on an unsigned integer. *)
Definition pad0 (width : nat) (n : N) : string :=
  let d := N_to_dec n in String.append (zeros (width - String.length d)) d.

(** [{}] on an [i32]. *)
Definition fmt_i32 (y : Z) : string :=
  if (y <? 0)%Z then String "-" (N_to_dec (Z.to_N (- y))) else N_to_dec (Z.to_N y).

Definition CRLF : string := String "013"%char (String "010"%char EmptyString).

(** [format!("{}[{}] {}-{:02}-{:02} {:02}:{:02}:{:02}.{:03} {}\r\n", ..)]. *)
Definition format_message (old_text : list Z) (lvl : level) (t : datetime) (msg_args : list Z)
    : list Z :=
  old_text ++
  string_scalars
    ("[" ++ level_name lvl ++ "] " ++ fmt_i32 (year t) ++ "-" ++ pad0 2 (month t + 1) ++
     "-" ++ pad0 2 (day t) ++ " " ++ pad0 2 (hour t) ++ ":" ++ pad0 2 (minute t) ++ ":" ++
     pad0 2 (second t) ++ "." ++ pad0 3 (nanosecond t / 1000000) ++ " ")%string ++
  msg_args ++ string_scalars CRLF.

(** [WindowLogger::log] on the edit control holding the UTF-16 text
    [text]: WM_GETTEXT gives the whole text, read back with
    [to_string_lossy]; WM_SETTEXT gets the new message as a C string. *)
Definition log (max_level : level_filter) (now : datetime) (r : log_record) (text : list Z)
    : list Z :=
  if enabled max_level (rec_level r) && is_our_path (module_path r) then
    let old_text := decode_utf16_lossy text in
    let msg := format_message old_text (rec_level r) now (args r) in
    upto_nul (utf16z msg)
  else text.

(** The edit control after a sequence of records, each at its time. *)
Fixpoint log_all (max_level : level_filter) (evs : list (datetime * log_record)) (text : list Z)
    : list Z :=
  match evs with
  | [] => text
  | (now, r) :: rest => log_all max_level rest (log max_level now r text)
  end.

(** The line a record adds, when it passes the filter. *)
Definition record_line (max_level : level_filter) (ev : datetime * log_record) : list Z :=
  let '(now, r) := ev in
  if enabled max_level (rec_level r) && is_our_path (module_path r) then
    format_message [] (rec_level r) now (args r)
  else [].

End Logger.

(** ** The build script (build.rs: [compile_resources]) *)

Module BuildScript.

(** [str::split('.')]: the pieces between the dots, empty ones included. *)
Fixpoint split_dot (s : string) : list string :=
  match s with
  | EmptyString => [EmptyString]
  | String c rest =>
      let parts := split_dot rest in
      if Ascii.eqb c "." then EmptyString :: parts
      else match parts with
           | p :: ps => String c p :: ps
           | [] => [String c EmptyString]
           end
  end.

(** The Windows version: [format!("{},{},{},0", ..)] from the first three
    parts of [VERSION] when it has at least three, else "0,0,0,0". *)
Definition app_version_windows (version : string) : string :=
  match split_dot version with
  | p0 :: p1 :: p2 :: _ => (p0 ++ "," ++ p1 ++ "," ++ p2 ++ ",0")%string
  | _ => "0,0,0,0"
  end.

Fixpoint count_dots (s : string) : nat :=
  match s with
  | EmptyString => 0
  | String c rest => (if Ascii.eqb c "." then 1 else 0) + count_dots rest
  end.

End BuildScript.

(** ** Concrete inputs *)

Definition exe_path : path := ["C:"; "miniraw"; "miniraw.exe"].

Definition world_of (f : gmap path (list Byte.byte)) : world :=
  mk_world f ∅ false (Some exe_path) (fun _ => None).

Definition w_empty : world := world_of ∅.

Definition p100 : path := ["C:"; "miniraw"; "100.spl"].

(** [100.spl] already exists next to the executable. *)
Definition w_taken : world := world_of {[ p100 := [Byte.x41] ]}.

(** [env::current_exe] failed. *)
Definition w_noexe : world := mk_world ∅ ∅ false None (fun _ => None).

Definition peer : string := "192.168.0.7:50412".

(** A connection handled at Unix second 100 whose reads are [rs]. *)
Definition stream_at_100 (rs : list read_result) : tcp_stream :=
  mk_stream (Ok peer) 100 rs.

Definition hello : list Byte.byte := list_byte_of_string "hello".

Definition bytes_1000 : list Byte.byte := repeat Byte.x41 1000.


(** Registries: empty; with the settings key locked; and with the settings
    key holding another value beside a second key. *)
Definition reg_empty : Settings.registry := Settings.mk_registry ∅ ∅ ∅.

Definition reg_locked : Settings.registry :=
  Settings.mk_registry ∅ {[ Settings.REG_KEY_NAME ]} ∅.


(** The settings key holding the value [d] under "discard". *)
Definition reg_with_value (d : list Byte.byte) : Settings.registry :=
  Settings.mk_registry
    {[ Settings.REG_KEY_NAME := Settings.mk_key {[ Settings.REG_VALUE_NAME := d ]} ]} ∅ ∅.

(** The settings key holding 0 under "discard", readable but not writable. *)
Definition reg_read_only : Settings.registry :=
  Settings.mk_registry
    {[ Settings.REG_KEY_NAME :=
         Settings.mk_key {[ Settings.REG_VALUE_NAME := [Byte.x00; Byte.x00; Byte.x00; Byte.x00] ]} ]}
    ∅ {[ Settings.REG_KEY_NAME ]}.

Definition msg_create : MainWin.window_message := MainWin.mk_message MainWin.WM_CREATE 0 0.
Definition msg_toggle : MainWin.window_message :=
  MainWin.mk_message MainWin.WM_SYSCOMMAND MainWin.IDM_DISCARD_FILES 0.
Definition msg_size (lparam : Z) : MainWin.window_message :=
  MainWin.mk_message MainWin.WM_SIZE 0 lparam.
(** [WM_SYSCOMMAND] with [SC_CLOSE]. *)
Definition msg_close : MainWin.window_message := MainWin.mk_message MainWin.WM_SYSCOMMAND 61536 0.

(** ** Properties *)

Ltac unfold_M :=
  unfold unwrap, unwrap_option, log_line, mbind, M_bind, mret, M_ret,
    get_world, put_files, throw, panic in *; cbv beta iota in *.

Lemma with_files_twice w f g : with_files (with_files w f) g = with_files w g.
Proof. reflexivity. Qed.

Lemma files_with_files w f : files (with_files w f) = f.
Proof. reflexivity. Qed.

Lemma alloc_body_spec ts w l :
  alloc_body ts w l =
    if bool_decide (occupied w ts) then
      (if bool_decide (ts + 1 < U64_LIMIT) then Done (Continue (ts + 1)) w l
       else Panicked w l)
    else Done (Break (alloc_path w ts)) w l.
Proof.
  unfold alloc_body, exe_dir, fs_exists, occupied, alloc_path. unfold_M. cbn.
  destruct (bool_decide (is_Some _)); cbn; [|reflexivity].
  destruct (bool_decide (ts + 1 < U64_LIMIT)); reflexivity.
Qed.

(** [alloc_iter d] leaves the world and log alone; it breaks at the first
    free name, continues [2^d] names further when all of them are taken,
    or panics when every name up to [u64::MAX] is taken. *)
Lemma alloc_iter_spec d : forall ts w l,
  (exists t, alloc_iter d ts w l = Done (Break (alloc_path w t)) w l /\
     ts <= t /\ files w !! alloc_path w t = None /\
     forall u, ts <= u < t -> occupied w u)
  \/ (alloc_iter d ts w l = Done (Continue (ts + 2 ^ N.of_nat d)) w l /\
      ts + 2 ^ N.of_nat d < U64_LIMIT /\
      forall u, ts <= u < ts + 2 ^ N.of_nat d -> occupied w u)
  \/ (alloc_iter d ts w l = Panicked w l /\
      forall u, ts <= u < U64_LIMIT -> occupied w u).
Proof.
  induction d as [|d IH]; intros ts w l.
  - cbn [alloc_iter]. rewrite alloc_body_spec.
    case_bool_decide as Hocc.
    + case_bool_decide as Hlim.
      * right; left. rewrite N.pow_0_r. split; [reflexivity|]. split; [exact Hlim|].
        intros u Hu. replace u with ts by lia. exact Hocc.
      * right; right. split; [reflexivity|].
        intros u Hu. replace u with ts by lia. exact Hocc.
    + left. exists ts. split; [reflexivity|]. split; [lia|]. split.
      * unfold occupied in Hocc. destruct (files w !! alloc_path w ts); [|reflexivity].
        exfalso. apply Hocc. eexists; reflexivity.
      * intros u Hu. lia.
  - cbn [alloc_iter]. unfold mbind, M_bind.
    destruct (IH ts w l) as [(t & Heq & Ht1 & Ht2 & Ht3)
                           | [(Heq & Hlim & Hocc) | (Heq & Hocc)]];
      rewrite Heq.
    + left. exists t. repeat split; auto.
    + replace (ts + 2 ^ N.of_nat (S d)) with
        ((ts + 2 ^ N.of_nat d) + 2 ^ N.of_nat d)
        by (rewrite Nat2N.inj_succ, N.pow_succ_r'; lia).
      destruct (IH (ts + 2 ^ N.of_nat d) w l) as [(t & Heq' & Ht1 & Ht2 & Ht3)
                           | [(Heq' & Hlim' & Hocc') | (Heq' & Hocc')]];
        rewrite Heq'.
      * left. exists t. split; [reflexivity|]. split; [lia|]. split; [exact Ht2|].
        intros u Hu. destruct (N.lt_ge_cases u (ts + 2 ^ N.of_nat d)).
        -- apply Hocc; lia.
        -- apply Ht3; lia.
      * right; left. split; [reflexivity|]. split; [exact Hlim'|].
        intros u Hu. destruct (N.lt_ge_cases u (ts + 2 ^ N.of_nat d)).
        -- apply Hocc; lia.
        -- apply Hocc'; lia.
      * right; right. split; [reflexivity|].
        intros u Hu. destruct (N.lt_ge_cases u (ts + 2 ^ N.of_nat d)).
        -- apply Hocc; lia.
        -- apply Hocc'; lia.
    + right; right. split; [reflexivity|exact Hocc].
Qed.

(** The allocation loop either returns the first free name from
    [timestamp] on, or panics because every later u64 name is taken. *)
Lemma allocate_spec ts w l :
  (exists t, allocate ts w l = Done (alloc_path w t) w l /\
     ts <= t /\ files w !! alloc_path w t = None /\
     forall u, ts <= u < t -> occupied w u)
  \/ (allocate ts w l = Panicked w l /\
      forall u, ts <= u < U64_LIMIT -> occupied w u).
Proof.
  unfold allocate, mbind, M_bind.
  destruct (alloc_iter_spec 64 ts w l) as [(t & Heq & Ht)
                           | [(Heq & Hlim & _) | (Heq & Hocc)]]; rewrite Heq.
  - left. exists t. split; [reflexivity|exact Ht].
  - exfalso. unfold U64_LIMIT in Hlim. cbn in Hlim. lia.
  - right. split; [reflexivity|exact Hocc].
Qed.

Lemma allocate_first_free ts w l t :
  first_free w ts t -> allocate ts w l = Done (alloc_path w t) w l.
Proof.
  intros (Hrange & Hfree & Hocc).
  destruct (allocate_spec ts w l) as [(t' & -> & Ht1 & Ht2 & Ht3) | (_ & Hall)].
  - destruct (N.lt_trichotomy t t') as [Hlt | [-> | Hgt]].
    + exfalso. destruct (Ht3 t) as [x Hx]; [lia|]. congruence.
    + reflexivity.
    + exfalso. destruct (Hocc t') as [x Hx]; [lia|]. congruence.
  - exfalso. destruct (Hall t) as [x Hx]; [lia|]. congruence.
Qed.

(** The copy appends the chunks to the file, one [write_all] per chunk. *)
Lemma fold_into_file_spec p rs : forall w0 f c l,
  f !! p = Some c ->
  fold_into_file p rs (with_files w0 f) l = copy_outcome w0 f p c rs l.
Proof.
  induction rs as [|r rest IH]; intros w0 f c l Hc.
  - unfold copy_outcome. cbn. rewrite andb_false_r, app_nil_r, (insert_id f p c Hc).
    reflexivity.
  - unfold copy_outcome. destruct r as [data | e]; cbn [fold_into_file stream_chunks poll].
    + case_bool_decide as Hlen.
      * assert (Hne : data <> []) by (intros ->; cbn in Hlen; lia).
        unfold fs_write_all, mbind, M_bind, get_world, throw, put_files; cbn [disk_full with_files].
        rewrite (bool_decide_eq_false_2 (data = [])) by exact Hne. cbn [negb].
        destruct (stream_chunks rest) as [chs err] eqn:Hs.
        rewrite (bool_decide_eq_true_2 (data :: chs <> [])) by discriminate.
        destruct (disk_full w0) eqn:Hfull; cbn [andb].
        -- reflexivity.
        -- rewrite with_files_twice, files_with_files, Hc. cbn [default].
           rewrite (IH w0 _ (c ++ data)) by apply lookup_insert_eq.
           unfold copy_outcome. rewrite Hs, Hfull. cbn [andb].
           rewrite insert_insert_eq, <- app_assoc. reflexivity.
      * cbn. rewrite andb_false_r, app_nil_r, (insert_id f p c Hc). reflexivity.
    + cbn. rewrite andb_false_r, app_nil_r, (insert_id f p c Hc). reflexivity.
Qed.

Lemma handle_stream_alloc s w l a t :
  peer_addr s = Ok a ->
  (0 <= clock s)%Z ->
  allocate (Z.to_N (clock s)) w (l ++ [Info_incoming a]) =
    Done (alloc_path w t) w (l ++ [Info_incoming a]) ->
  handle_stream s w l = session_outcome w l a t (reads s).
Proof.
  intros Hpeer Hclock Halloc.
  unfold handle_stream. rewrite Hpeer.
  unfold duration_since_epoch. rewrite (proj2 (Z.ltb_ge _ 0) Hclock).
  unfold_M. rewrite Halloc.
  unfold map_err_warn, fs_create, mbind, M_bind, get_world, throw, put_files.
  unfold session_outcome.
  destruct (bool_decide (alloc_path w t ∈ denied w));
    [destruct (stream_chunks (reads s)); reflexivity|].
  rewrite (fold_into_file_spec _ _ w _ []) by apply lookup_insert_eq.
  unfold copy_outcome.
  destruct (stream_chunks (reads s)) as [chs err].
  cbn [app]. rewrite insert_insert_eq.
  destruct (disk_full w && bool_decide (chs <> [])); [reflexivity|].
  destruct err as [e|]; [reflexivity|].
  unfold fs_metadata_len, mbind, M_bind, get_world, unwrap_option, mret, M_ret, log_line.
  rewrite files_with_files, lookup_insert_eq.
  unfold alloc_path, join, last_component. rewrite last_snoc.
  rewrite <- app_assoc. reflexivity.
Qed.

Lemma handle_stream_alloc_panics s w l a w' l' :
  peer_addr s = Ok a ->
  (0 <= clock s)%Z ->
  allocate (Z.to_N (clock s)) w (l ++ [Info_incoming a]) = Panicked w' l' ->
  handle_stream s w l = Panicked w' l'.
Proof.
  intros Hpeer Hclock Halloc.
  unfold handle_stream. rewrite Hpeer.
  unfold duration_since_epoch. rewrite (proj2 (Z.ltb_ge _ 0) Hclock).
  unfold_M. rewrite Halloc. reflexivity.
Qed.

Lemma handle_stream_spec s w l a t :
  peer_addr s = Ok a ->
  (0 <= clock s)%Z ->
  first_free w (Z.to_N (clock s)) t ->
  handle_stream s w l = session_outcome w l a t (reads s).
Proof.
  intros Hpeer Hclock Hfree.
  apply handle_stream_alloc; [exact Hpeer|exact Hclock|].
  apply allocate_first_free. exact Hfree.
Qed.

Lemma stream_chunks_fit rs :
  reads_fit rs -> Forall (fun c => N.of_nat (length c) <= CHUNK_SIZE) (fst (stream_chunks rs)).
Proof.
  induction 1 as [|r rest Hr Hrest IH]; [constructor|].
  destruct r as [data|e]; cbn [stream_chunks poll]; [|constructor].
  case_bool_decide; [|constructor].
  destruct (stream_chunks rest) as [cs err]. cbn in *. constructor; assumption.
Qed.

Lemma for_each_incoming_prefix pre rest : forall w l w1 l1,
  for_each_incoming pre w l = Done tt w1 l1 ->
  for_each_incoming (pre ++ rest) w l = for_each_incoming rest w1 l1.
Proof.
  induction pre as [|x pre IH]; intros w l w1 l1 H.
  - cbn in H. injection H as -> ->. reflexivity.
  - destruct x as [s|e]; cbn [for_each_incoming app] in *.
    + unfold mbind, M_bind in *.
      destruct (handle_stream s w l) as [[] w' l'|e w' l'|w' l']; try discriminate.
      apply IH. exact H.
    + discriminate.
Qed.

Lemma start_raw_listener_spec inc w l :
  bind_error w = None ->
  start_raw_listener inc w l =
    match for_each_incoming inc w (l ++ [Info_started]) with
    | Failed e w' l' => Failed e w' (l' ++ [Warn_err e])
    | r => r
    end.
Proof.
  intros Hb. unfold start_raw_listener, map_err_warn, tcp_bind.
  unfold_M. fold (bind_error w). rewrite Hb. cbv beta iota.
  destruct (for_each_incoming inc w (l ++ [Info_started])); reflexivity.
Qed.

(** ** Claims *)

(** C1 (counterexample): the create is not an exclusive create.  With no
    file present, allocation picks [100.spl]; if a file appears under that
    name before [File::create] runs, the create succeeds and truncates it
    instead of failing. *)
Lemma C1_create_truncates_existing :
  allocate 100 w_empty [] = Done p100 w_empty [] /\
  files w_taken !! p100 = Some [Byte.x41] /\
  fs_create p100 w_taken [] = Done tt (with_files w_taken {[ p100 := [] ]}) [].
Proof.
  split; [vm_compute; reflexivity|]. split; [vm_compute; reflexivity|].
  vm_compute. reflexivity.
Qed.

(** C1 (amended): allocation only checks existence; the name it returns had
    no file when it was checked, and the later [File::create] on it
    succeeds whatever is there by then, leaving an empty file. *)
Lemma allocate_checks_then_create_truncates ts w l p w' l' :
  allocate ts w l = Done p w' l' ->
  w' = w /\ l' = l /\ files w !! p = None /\
  forall w1 l1, p ∉ denied w1 ->
    fs_create p w1 l1 = Done tt (with_files w1 (<[p := []]> (files w1))) l1.
Proof.
  intros H.
  destruct (allocate_spec ts w l) as [(t & Heq & _ & Hfree & _) | (Heq & _)];
    rewrite Heq in H; [|discriminate].
  injection H as <- <- <-. split; [reflexivity|]. split; [reflexivity|].
  split; [exact Hfree|].
  intros w1 l1 Hden. unfold fs_create. unfold_M.
  rewrite (bool_decide_eq_false_2 _ Hden). reflexivity.
Qed.

Lemma allocate_checks_then_create_truncates_witness :
  allocate 100 w_taken [] = Done ["C:"; "miniraw"; "101.spl"] w_taken [] /\
  files w_taken !! ["C:"; "miniraw"; "101.spl"] = None.
Proof.
  assert (H : allocate 100 w_taken [] = Done ["C:"; "miniraw"; "101.spl"] w_taken [])
    by (vm_compute; reflexivity).
  split; [exact H|].
  exact (proj1 (proj2 (proj2 (allocate_checks_then_create_truncates _ _ _ _ _ _ H)))).
Defined.

(** C2 (counterexample): when [100.spl] exists, a second allocation in
    second 100 does not yield [100-1.spl]. *)
Lemma C2_no_suffix_on_collision :
  ~ (exists w' l', allocate 100 w_taken [] = Done ["C:"; "miniraw"; "100-1.spl"] w' l').
Proof.
  intros (w' & l' & H). vm_compute in H. discriminate.
Qed.

(** C2 (amended): the allocator advances the timestamp itself: it returns
    [<t>.spl] for the first [t >= ts] whose name has no file, every name
    from [ts] to [t - 1] being taken, and so never the name of an existing
    file; it can only panic (u64 overflow) when every later name is taken. *)
Lemma allocate_advances_timestamp ts w l :
  (exists t, allocate ts w l = Done (join (exe_dir_of w) (spl_name t)) w l /\
     ts <= t /\ files w !! join (exe_dir_of w) (spl_name t) = None /\
     forall u, ts <= u < t -> is_Some (files w !! join (exe_dir_of w) (spl_name u)))
  \/ (allocate ts w l = Panicked w l /\
      forall u, ts <= u < U64_LIMIT -> is_Some (files w !! join (exe_dir_of w) (spl_name u))).
Proof. exact (allocate_spec ts w l). Qed.

(** C3 (counterexample): a connection that closes without sending leaves
    the empty [100.spl] on disk and logs "Saved 0 bytes", with no warning. *)
Lemma C3_empty_file_kept :
  handle_stream (stream_at_100 []) w_empty [] =
    Done tt (with_files w_empty {[ p100 := [] ]})
      [Info_incoming peer; Info_saved 0 "100.spl"].
Proof. vm_compute. reflexivity. Qed.

(** C3 (amended): a session that receives zero bytes and closes keeps the
    newly created empty file and logs an info line "Saved 0 bytes into
    <name>"; nothing is deleted and no warning is logged. *)
Lemma empty_session_keeps_empty_file s w l a t :
  peer_addr s = Ok a ->
  (0 <= clock s)%Z ->
  first_free w (Z.to_N (clock s)) t ->
  alloc_path w t ∉ denied w ->
  stream_chunks (reads s) = ([], None) ->
  files w !! alloc_path w t = None /\
  handle_stream s w l =
    Done tt (with_files w (<[alloc_path w t := []]> (files w)))
      (l ++ [Info_incoming a; Info_saved 0 (spl_name t)]).
Proof.
  intros Hpeer Hclock Hfree Hden Hs. split; [apply Hfree|].
  rewrite (handle_stream_spec s w l a t) by assumption.
  unfold session_outcome. rewrite Hs, (bool_decide_eq_false_2 _ Hden), andb_false_r.
  cbn [concat].
  rewrite <- app_assoc. reflexivity.
Qed.

Lemma empty_session_keeps_empty_file_witness :
  files w_empty !! alloc_path w_empty 100 = None /\
  handle_stream (stream_at_100 []) w_empty [] =
    Done tt (with_files w_empty (<[alloc_path w_empty 100 := []]> (files w_empty)))
      ([] ++ [Info_incoming peer; Info_saved 0 (spl_name 100)]).
Proof.
  apply (empty_session_keeps_empty_file (stream_at_100 []) w_empty [] peer 100).
  - reflexivity.
  - vm_compute. discriminate.
  - split; [cbn; unfold U64_LIMIT; lia|]. split; [vm_compute; reflexivity|].
    intros u Hu. cbn in Hu. lia.
  - vm_compute. intros H. inversion H.
  - reflexivity.
Defined.

(** C4 (code behaviour): the listener has no discard path.  A connection
    sending 1000 bytes is always saved into a new file and logged as saved;
    [start_raw_listener] takes no flag, so nothing can make it discard. *)
Lemma listener_saves_1000_bytes :
  start_raw_listener [Ok (stream_at_100 [ReadOk bytes_1000])] w_empty [] =
    Done tt (with_files w_empty {[ p100 := bytes_1000 ]})
      [Info_started; Info_incoming peer; Info_saved 1000 "100.spl"].
Proof. vm_compute. reflexivity. Qed.

(** C5 (failing input): an I/O error in the first session ends the
    listener; the second connection is never handled. *)
Lemma C5_session_error_stops_listener :
  start_raw_listener
    [Ok (stream_at_100 [ReadErr ConnectionReset]);
     Ok (stream_at_100 [ReadOk hello])] w_empty [] =
    Failed ConnectionReset (with_files w_empty {[ p100 := [] ]})
      [Info_started; Info_incoming peer;
       Warn_err ConnectionReset; Warn_err ConnectionReset].
Proof. vm_compute. reflexivity. Qed.

(** C5 (what the code does): after any run of handled connections [pre],
    an accept error, or a session that fails with an I/O error (file
    creation, read or write), ends the accept loop with that error: the
    session's [map_err] logs it and hands it back to [for_each], the outer
    [map_err] logs it again, and no later connection [rest] is handled. *)
Lemma io_error_ends_listener pre rest w l w1 l1 :
  bind_error w = None ->
  for_each_incoming pre w (l ++ [Info_started]) = Done tt w1 l1 ->
  (forall e, start_raw_listener (pre ++ Err e :: rest) w l =
               Failed e w1 (l1 ++ [Warn_err e])) /\
  (forall s e w2 l2, handle_stream s w1 l1 = Failed e w2 l2 ->
     start_raw_listener (pre ++ Ok s :: rest) w l = Failed e w2 (l2 ++ [Warn_err e])).
Proof.
  intros Hb Hpre. split.
  - intros e. rewrite (start_raw_listener_spec _ _ _ Hb).
    rewrite (for_each_incoming_prefix _ _ _ _ _ _ Hpre). reflexivity.
  - intros s e w2 l2 Hs. rewrite (start_raw_listener_spec _ _ _ Hb).
    rewrite (for_each_incoming_prefix _ _ _ _ _ _ Hpre).
    cbn [for_each_incoming]. unfold mbind, M_bind. rewrite Hs. reflexivity.
Qed.

Lemma io_error_ends_listener_witness :
  start_raw_listener [Err ConnectionReset; Ok (stream_at_100 [ReadOk hello])] w_empty [] =
    Failed ConnectionReset w_empty ([Info_started] ++ [Warn_err ConnectionReset]).
Proof.
  exact (proj1 (io_error_ends_listener [] [Ok (stream_at_100 [ReadOk hello])]
                  w_empty [] w_empty [Info_started] eq_refl eq_refl) ConnectionReset).
Defined.

(** C6: a session whose connection closes without error writes exactly the
    concatenation of the chunks read (each at most [CHUNK_SIZE] bytes) into
    its new file, and logs the byte count with the file's base name. *)
Lemma saved_file_holds_payload s w l a t chs :
  peer_addr s = Ok a ->
  (0 <= clock s)%Z ->
  first_free w (Z.to_N (clock s)) t ->
  alloc_path w t ∉ denied w ->
  disk_full w = false ->
  stream_chunks (reads s) = (chs, None) ->
  files w !! alloc_path w t = None /\
  handle_stream s w l =
    Done tt (with_files w (<[alloc_path w t := concat chs]> (files w)))
      (l ++ [Info_incoming a; Info_saved (N.of_nat (length (concat chs))) (spl_name t)]) /\
  (reads_fit (reads s) -> Forall (fun c => N.of_nat (length c) <= CHUNK_SIZE) chs).
Proof.
  intros Hpeer Hclock Hfree Hden Hfull Hs. split; [apply Hfree|]. split.
  - rewrite (handle_stream_spec s w l a t) by assumption.
    unfold session_outcome. rewrite Hs, (bool_decide_eq_false_2 _ Hden), Hfull.
    cbn [andb]. rewrite <- app_assoc. reflexivity.
  - intros Hfit. pose proof (stream_chunks_fit _ Hfit) as H. rewrite Hs in H. exact H.
Qed.

Lemma saved_file_holds_payload_witness :
  files w_empty !! alloc_path w_empty 100 = None /\
  handle_stream (stream_at_100 [ReadOk hello]) w_empty [] =
    Done tt (with_files w_empty (<[alloc_path w_empty 100 := concat [hello]]> (files w_empty)))
      ([] ++ [Info_incoming peer; Info_saved (N.of_nat (length (concat [hello]))) (spl_name 100)]) /\
  (reads_fit [ReadOk hello] -> Forall (fun c => N.of_nat (length c) <= CHUNK_SIZE) [hello]).
Proof.
  apply (saved_file_holds_payload (stream_at_100 [ReadOk hello]) w_empty [] peer 100 [hello]).
  - reflexivity.
  - vm_compute. discriminate.
  - split; [cbn; unfold U64_LIMIT; lia|]. split; [vm_compute; reflexivity|].
    intros u Hu. cbn in Hu. lia.
  - vm_compute. intros H. inversion H.
  - reflexivity.
  - vm_compute. reflexivity.
Defined.

(** C7 (counterexample): when [peer_addr] fails, [unwrap] panics: the
    connection is not handled, and neither is the next one. *)
Lemma C7_peer_addr_error_panics :
  start_raw_listener
    [Ok (mk_stream (Err NotConnected) 100 [ReadOk hello]);
     Ok (stream_at_100 [ReadOk hello])] w_empty [] =
    Panicked w_empty [Info_started].
Proof. vm_compute. reflexivity. Qed.

(** C7 (amended): a failure to fetch the peer address panics at
    [peer_addr().unwrap()], before anything is logged or created for that
    connection, and the listener stops with it. *)
Lemma peer_addr_error_panics pre s rest w l w1 l1 e :
  bind_error w = None ->
  for_each_incoming pre w (l ++ [Info_started]) = Done tt w1 l1 ->
  peer_addr s = Err e ->
  start_raw_listener (pre ++ Ok s :: rest) w l = Panicked w1 l1.
Proof.
  intros Hb Hpre Hpeer. rewrite (start_raw_listener_spec _ _ _ Hb).
  rewrite (for_each_incoming_prefix _ _ _ _ _ _ Hpre).
  cbn [for_each_incoming]. unfold handle_stream. rewrite Hpeer.
  unfold_M. reflexivity.
Qed.

Lemma peer_addr_error_panics_witness :
  start_raw_listener
    [Ok (mk_stream (Err NotConnected) 100 [ReadOk hello]);
     Ok (stream_at_100 [ReadOk hello])] w_empty [] =
    Panicked w_empty [Info_started].
Proof.
  exact (peer_addr_error_panics [] (mk_stream (Err NotConnected) 100 [ReadOk hello])
           [Ok (stream_at_100 [ReadOk hello])] w_empty [] w_empty [Info_started]
           NotConnected eq_refl eq_refl eq_refl).
Defined.

(** C8: when the copy stops on an I/O error (read or write), the error is
    logged and the file stays on disk holding the bytes written so far,
    a prefix of the data read; nothing removes it. *)
Lemma copy_error_leaves_partial_file s w l a t e w' l' :
  peer_addr s = Ok a ->
  (0 <= clock s)%Z ->
  first_free w (Z.to_N (clock s)) t ->
  alloc_path w t ∉ denied w ->
  handle_stream s w l = Failed e w' l' ->
  files w !! alloc_path w t = None /\
  (exists c, w' = with_files w (<[alloc_path w t := c]> (files w)) /\
     c `prefix_of` concat (fst (stream_chunks (reads s)))) /\
  last l' = Some (Warn_err e).
Proof.
  intros Hpeer Hclock Hfree Hden H. split; [apply Hfree|].
  rewrite (handle_stream_spec s w l a t) in H by assumption.
  unfold session_outcome in H. rewrite (bool_decide_eq_false_2 _ Hden) in H.
  destruct (stream_chunks (reads s)) as [chs err]. cbn [fst].
  destruct (disk_full w && bool_decide (chs <> [])).
  - injection H as <- <- <-. split.
    + exists []. split; [reflexivity|]. apply prefix_nil.
    + apply last_snoc.
  - destruct err as [e'|]; [|discriminate].
    injection H as <- <- <-. split.
    + exists (concat chs). split; [reflexivity|]. reflexivity.
    + apply last_snoc.
Qed.

Lemma copy_error_leaves_partial_file_witness :
  files w_empty !! alloc_path w_empty 100 = None /\
  (exists c, with_files w_empty {[ p100 := hello ]} =
               with_files w_empty (<[alloc_path w_empty 100 := c]> (files w_empty)) /\
     c `prefix_of` concat (fst (stream_chunks [ReadOk hello; ReadErr ConnectionReset]))) /\
  last [Info_incoming peer; Warn_err ConnectionReset] = Some (Warn_err ConnectionReset).
Proof.
  apply (copy_error_leaves_partial_file
           (stream_at_100 [ReadOk hello; ReadErr ConnectionReset]) w_empty [] peer 100).
  - reflexivity.
  - vm_compute. discriminate.
  - split; [cbn; unfold U64_LIMIT; lia|]. split; [vm_compute; reflexivity|].
    intros u Hu. cbn in Hu. lia.
  - vm_compute. intros H. inversion H.
  - vm_compute. reflexivity.
Defined.

(** C9 (counterexample): on a collision the name is [101.spl], not
    [100-1.spl]; and when [current_exe] fails the file is the relative
    path [100.spl], in the working directory. *)
Lemma C9_collision_and_fallback_paths :
  allocate 100 w_taken [] = Done ["C:"; "miniraw"; "101.spl"] w_taken [] /\
  allocate 100 w_noexe [] = Done ["100.spl"] w_noexe [].
Proof. split; vm_compute; reflexivity. Qed.

(** C9 (amended): the listener binds [0.0.0.0:9100]: what [bind] returns
    for that address decides whether it starts (an error there is logged
    and ends it) and no other address is consulted. A session that
    completes has created one file [<t>.spl] under a path that had no
    file, where [t] is the first integer at or after the Unix seconds read
    when the connection was handled whose path is free (collisions bump
    [t]); the path is in the directory of the executable, or relative
    (the working directory) when [current_exe] gives none. *)
Lemma capture_address_and_location :
  (forall inc w l,
     start_raw_listener inc w l =
       match bind_errors w ((0, 0, 0, 0), 9100) with
       | Some e => Failed e w (l ++ [Warn_err e])
       | None =>
           match for_each_incoming inc w (l ++ [Info_started]) with
           | Failed e w1 l1 => Failed e w1 (l1 ++ [Warn_err e])
           | r => r
           end
       end) /\
  (forall s w l w' l',
     handle_stream s w l = Done tt w' l' ->
     (0 <= clock s)%Z /\
     exists t c, Z.to_N (clock s) <= t /\
       files w !! join (exe_dir_of w) (spl_name t) = None /\
       (forall u, Z.to_N (clock s) <= u < t ->
          is_Some (files w !! join (exe_dir_of w) (spl_name u))) /\
       w' = with_files w (<[join (exe_dir_of w) (spl_name t) := c]> (files w))).
Proof.
  split.
  { intros inc w l. unfold start_raw_listener, map_err_warn, tcp_bind. unfold_M.
    unfold LISTEN_ADDR.
    destruct (bind_errors w ((0, 0, 0, 0), 9100)); cbv beta iota; [reflexivity|].
    destruct (for_each_incoming inc w (l ++ [Info_started])); reflexivity. }
  intros s w l w' l' H.
  destruct (peer_addr s) as [a|e] eqn:Hp;
    [|unfold handle_stream in H; rewrite Hp in H; unfold_M; discriminate].
  destruct (Z.ltb (clock s) 0) eqn:Hc.
  { unfold handle_stream, duration_since_epoch in H. rewrite Hp, Hc in H.
    unfold_M. discriminate. }
  apply Z.ltb_ge in Hc. split; [exact Hc|].
  destruct (allocate_spec (Z.to_N (clock s)) w (l ++ [Info_incoming a]))
    as [(t & Heq & Hle & Hfree & Hmin) | (Heq & _)].
  - rewrite (handle_stream_alloc s w l a t Hp Hc Heq) in H.
    unfold session_outcome in H.
    destruct (stream_chunks (reads s)) as [chs err].
    destruct (bool_decide (alloc_path w t ∈ denied w)); [discriminate|].
    destruct (disk_full w && bool_decide (chs <> [])); [discriminate|].
    destruct err; [discriminate|].
    injection H as <- _. exists t, (concat chs).
    split; [exact Hle|]. split; [exact Hfree|]. split; [exact Hmin|]. reflexivity.
  - rewrite (handle_stream_alloc_panics s w l a _ _ Hp Hc Heq) in H. discriminate.
Qed.

(** On [w_taken] the connection at second 100 is saved into [101.spl]. *)
Lemma capture_address_and_location_witness :
  (0 <= clock (stream_at_100 [ReadOk hello]))%Z /\
  exists t c, Z.to_N (clock (stream_at_100 [ReadOk hello])) <= t /\
    files w_taken !! join (exe_dir_of w_taken) (spl_name t) = None /\
    (forall u, Z.to_N (clock (stream_at_100 [ReadOk hello])) <= u < t ->
       is_Some (files w_taken !! join (exe_dir_of w_taken) (spl_name u))) /\
    with_files w_taken (<[["C:"; "miniraw"; "101.spl"] := hello]> (files w_taken)) =
      with_files w_taken (<[join (exe_dir_of w_taken) (spl_name t) := c]> (files w_taken)).
Proof.
  apply (proj2 capture_address_and_location (stream_at_100 [ReadOk hello]) w_taken []
           (with_files w_taken (<[["C:"; "miniraw"; "101.spl"] := hello]> (files w_taken)))
           [Info_incoming peer; Info_saved 5 "101.spl"]).
  vm_compute. reflexivity.
Defined.

(** C10: the loaded discard flag is true exactly when the key opens, the
    "discard" value is read, and the 32-bit value in the buffer is not 0;
    every failure leaves it false. *)
Lemma load_discard_flag_iff r :
  Settings.discard_flag (Settings.load r) = true <->
  exists k d,
    Settings.RegOpenKeyW r Settings.REG_KEY_NAME = Settings.WinOk k /\
    Settings.RegQueryValueExW k Settings.REG_VALUE_NAME 4 = Settings.WinOk d /\
    Settings.u32_from_ne_bytes (Settings.fill_buffer d) <> 0.
Proof.
  unfold Settings.discard_flag, Settings.load. cbn [Settings.discard_flag_cell].
  destruct (Settings.RegOpenKeyW r Settings.REG_KEY_NAME) as [k|e] eqn:Ho.
  - destruct (Settings.RegQueryValueExW k Settings.REG_VALUE_NAME 4) as [d|e] eqn:Hq.
    + rewrite negb_true_iff, N.eqb_neq. split.
      * intros H. exists k, d. split; [reflexivity|]. split; [exact Hq|exact H].
      * intros (k' & d' & Hk & Hd & H). injection Hk as <-. rewrite Hq in Hd.
        injection Hd as <-. exact H.
    + split; [discriminate|]. intros (k' & d' & Hk & Hd & _).
      injection Hk as <-. rewrite Hq in Hd. discriminate.
  - split; [discriminate|]. intros (k' & d' & Hk & _). discriminate.
Qed.

(** ** Further properties: settings and the main window *)

Section SettingsProps.
Import Settings SettingsWrite.

(** The registry after [store] when the settings key opens with write
    access. *)
Lemma store_writable r s :
  REG_KEY_NAME ∉ no_access r -> REG_KEY_NAME ∉ read_only r ->
  store s r =
    mk_registry
      (<[REG_KEY_NAME :=
           mk_key (<[REG_VALUE_NAME := u32_to_ne_bytes (bool_as_u32 (discard_flag_cell s))]>
                     (values (default (mk_key ∅) (subkeys r !! REG_KEY_NAME))))]> (subkeys r))
      (no_access r) (read_only r).
Proof.
  intros Hacc Hro. unfold store, RegCreateKeyW.
  rewrite (bool_decide_eq_false_2 _ Hacc).
  destruct (subkeys r !! REG_KEY_NAME) eqn:Hk; unfold RegSetKeyValueW.
  - rewrite (bool_decide_eq_false_2 _ Hro). cbn [negb hkey_writable hkey_name].
    rewrite Hk. reflexivity.
  - cbn [hkey_writable hkey_name subkeys no_access read_only].
    rewrite lookup_insert_eq, insert_insert_eq. reflexivity.
Qed.

(** [store] either changes nothing, or writes the value into a key it could
    open. *)
Lemma store_cases r s :
  store s r = r \/
  ((REG_KEY_NAME ∉ no_access r) /\
   store s r =
    mk_registry
      (<[REG_KEY_NAME :=
           mk_key (<[REG_VALUE_NAME := u32_to_ne_bytes (bool_as_u32 (discard_flag_cell s))]>
                     (values (default (mk_key ∅) (subkeys r !! REG_KEY_NAME))))]> (subkeys r))
      (no_access r) (read_only r)).
Proof.
  case (decide (REG_KEY_NAME ∈ no_access r)) as [Hacc|Hacc].
  { left. unfold store, RegCreateKeyW. rewrite (bool_decide_eq_true_2 _ Hacc). reflexivity. }
  case (decide (REG_KEY_NAME ∈ read_only r)) as [Hro|Hro].
  2:{ right. split; [exact Hacc|]. apply store_writable; assumption. }
  destruct (subkeys r !! REG_KEY_NAME) eqn:Hk.
  - left. unfold store, RegCreateKeyW. rewrite (bool_decide_eq_false_2 _ Hacc), Hk.
    unfold RegSetKeyValueW. rewrite (bool_decide_eq_true_2 _ Hro). reflexivity.
  - right. split; [exact Hacc|]. unfold store, RegCreateKeyW.
    rewrite (bool_decide_eq_false_2 _ Hacc), Hk. unfold RegSetKeyValueW.
    cbn [hkey_writable hkey_name subkeys no_access read_only].
    rewrite lookup_insert_eq, insert_insert_eq. reflexivity.
Qed.

Lemma store_keeps_access r s :
  no_access (store s r) = no_access r /\ read_only (store s r) = read_only r.
Proof. destruct (store_cases r s) as [->|[_ ->]]; split; reflexivity. Qed.

Lemma store_load_roundtrip r s :
  REG_KEY_NAME ∉ no_access r -> REG_KEY_NAME ∉ read_only r ->
  discard_flag (load (store s r)) = discard_flag_cell s.
Proof.
  intros Hacc Hro. rewrite (store_writable r s Hacc Hro).
  unfold load, RegOpenKeyW, RegQueryValueExW. cbn [no_access subkeys].
  rewrite (bool_decide_eq_false_2 _ Hacc), lookup_insert_eq. cbn [values].
  rewrite lookup_insert_eq. destruct s as [[|]]; reflexivity.
Qed.

(** A key that exists but opens without write access is left as it was. *)
Lemma store_read_only r s :
  REG_KEY_NAME ∈ read_only r -> is_Some (subkeys r !! REG_KEY_NAME) -> store s r = r.
Proof.
  intros Hro [k Hk]. unfold store, RegCreateKeyW.
  case_bool_decide; [reflexivity|]. rewrite Hk.
  unfold RegSetKeyValueW. rewrite (bool_decide_eq_true_2 _ Hro). reflexivity.
Qed.

Lemma u32_from_ne_bytes_zero d :
  u32_from_ne_bytes d = 0 <-> Forall (fun b => b = Byte.x00) d.
Proof.
  induction d as [|b d IH]; cbn [u32_from_ne_bytes fold_right].
  - split; [constructor|reflexivity].
  - fold (u32_from_ne_bytes d). split.
    + intros H. constructor; [|apply IH; lia].
      assert (Hb : Byte.to_N b = 0) by lia.
      pose proof (Byte.of_to_N b) as Hob. rewrite Hb in Hob. cbn in Hob.
      injection Hob as <-. reflexivity.
    + intros H. inversion H as [|? ? Hb Hd]; subst.
      apply IH in Hd. rewrite Hd. reflexivity.
Qed.

Lemma u32_from_ne_bytes_zeros d n :
  u32_from_ne_bytes (d ++ repeat Byte.x00 n) = u32_from_ne_bytes d.
Proof.
  unfold u32_from_ne_bytes.
  induction d as [|b d IH]; cbn [app fold_right].
  - induction n as [|n IHn]; cbn [repeat fold_right]; [reflexivity|].
    rewrite IHn. reflexivity.
  - rewrite IH. reflexivity.
Qed.

Lemma fill_buffer_zeros d :
  (length d <= 4)%nat -> fill_buffer d = d ++ repeat Byte.x00 (4 - length d).
Proof.
  intros H. unfold fill_buffer. f_equal.
  destruct d as [|? [|? [|? [|? [|]]]]]; cbn in *; try reflexivity; lia.
Qed.

(** The flag [AppSettings::load] reads from a stored value [d]. *)
Lemma load_of_value r k d :
  RegOpenKeyW r REG_KEY_NAME = WinOk k ->
  values k !! REG_VALUE_NAME = Some d ->
  discard_flag (load r) =
    bool_decide (length d <= 4)%nat && existsb (fun b => negb (Byte.eqb b Byte.x00)) d.
Proof.
  intros Ho Hv. unfold discard_flag, load. rewrite Ho. cbn [discard_flag_cell].
  unfold RegQueryValueExW. rewrite Hv.
  case_bool_decide as Hlen; cbn [andb]; [|reflexivity].
  rewrite fill_buffer_zeros, u32_from_ne_bytes_zeros by exact Hlen.
  destruct (N.eqb (u32_from_ne_bytes d) 0) eqn:Hz; cbn [negb].
  - apply N.eqb_eq, u32_from_ne_bytes_zero in Hz.
    symmetry. apply not_true_iff_false. intros Hex.
    apply existsb_exists in Hex as (b & Hb & Hnz).
    rewrite List.Forall_forall in Hz. rewrite (Hz b Hb) in Hnz. discriminate.
  - symmetry. apply existsb_exists.
    apply N.eqb_neq in Hz. rewrite u32_from_ne_bytes_zero, List.Forall_forall in Hz.
    destruct (existsb (fun b => negb (Byte.eqb b Byte.x00)) d) eqn:Hex.
    + apply existsb_exists in Hex. exact Hex.
    + exfalso. apply Hz. intros b Hb.
      destruct (Byte.eqb b Byte.x00) eqn:Hbe; [exact (Byte.byte_dec_bl _ _ Hbe)|].
      assert (Hin : existsb (fun b => negb (Byte.eqb b Byte.x00)) d = true)
        by (apply existsb_exists; exists b; rewrite Hbe; split; [exact Hb|reflexivity]).
      congruence.
Qed.


End SettingsProps.

Section MainWinProps.
Import Settings SettingsWrite MainWin.

Lemma new_flag_false r : new_flag r = false.
Proof.
  unfold new_flag, load_discard_flag.
  destruct (RegOpenKeyW r REG_KEY_NAME); reflexivity.
Qed.

Lemma menu_check_app id m1 m2 :
  menu_check id (m1 ++ m2) =
    match menu_check id m1 with Some b => Some b | None => menu_check id m2 end.
Proof.
  induction m1 as [|it m1 IH]; [reflexivity|]. cbn.
  destruct (N.eqb (item_id it) id); [reflexivity|exact IH].
Qed.

Lemma menu_check_update id flag menu b :
  menu_check id menu = Some b ->
  menu_check id (check_menu_item id flag menu) = Some flag.
Proof.
  induction menu as [|it menu IH]; cbn; [discriminate|].
  destruct (N.eqb (item_id it) id) eqn:He; cbn.
  - rewrite He. reflexivity.
  - rewrite He. exact IH.
Qed.

Lemma handle_message_other v m s res s' :
  handle_message v m s = Some (res, s') ->
  ~ (msg m = WM_SYSCOMMAND /\ wparam m = IDM_DISCARD_FILES) ->
  discard s' = discard s /\ reg s' = reg s /\ sys_menu s' = sys_menu s.
Proof.
  intros H Hne. unfold handle_message in H.
  destruct (N.eqb (msg m) WM_SYSCOMMAND && N.eqb (wparam m) IDM_DISCARD_FILES) eqn:Ht.
  { exfalso. apply Hne. apply andb_true_iff in Ht as [H1 H2].
    split; apply N.eqb_eq; assumption. }
  destruct (N.eqb (msg m) WM_CREATE).
  { destruct (edit_build_fails s); [discriminate|].
    injection H as _ <-. repeat split. }
  destruct (N.eqb (msg m) WM_SIZE).
  { destruct (move_first_child _ (children s)); [|discriminate].
    injection H as _ <-. repeat split. }
  destruct (N.eqb (msg m) WM_DESTROY); injection H as _ <-; repeat split.
Qed.

Lemma handle_message_toggle v m s res s' :
  is_toggle m -> handle_message v m s = Some (res, s') ->
  discard s' = negb (discard s) /\
  reg s' = store (mk_settings (negb (discard s))) (reg s) /\
  sys_menu s' = check_menu_item IDM_DISCARD_FILES (negb (discard s)) (sys_menu s).
Proof.
  intros (H1 & H2) H. unfold handle_message in H. rewrite H1, H2 in H.
  cbn in H. injection H as _ <-. repeat split.
Qed.

Lemma handle_message_cases v m s res s' :
  handle_message v m s = Some (res, s') ->
  (is_toggle m /\ discard s' = negb (discard s) /\
   reg s' = store (mk_settings (negb (discard s))) (reg s) /\
   sys_menu s' = check_menu_item IDM_DISCARD_FILES (negb (discard s)) (sys_menu s)) \/
  (discard s' = discard s /\ reg s' = reg s /\ sys_menu s' = sys_menu s).
Proof.
  intros H.
  case (decide (msg m = WM_SYSCOMMAND /\ wparam m = IDM_DISCARD_FILES)) as [Ht|Ht].
  - left. split; [exact Ht|]. exact (handle_message_toggle v m s res s' Ht H).
  - right. exact (handle_message_other v m s res s' H Ht).
Qed.

Lemma handle_message_menu v m s res s' :
  menu_consistent s -> handle_message v m s = Some (res, s') -> menu_consistent s'.
Proof.
  unfold menu_consistent. intros Hm H.
  destruct (handle_message_cases v m s res s' H) as [(_ & Hd & _ & Hs)|(Hd & _ & Hs)];
    rewrite Hd, Hs; [exact (menu_check_update _ _ _ _ Hm)|exact Hm].
Qed.

Lemma handle_message_writable v m s res s' :
  key_writable (reg s) -> handle_message v m s = Some (res, s') -> key_writable (reg s').
Proof.
  unfold key_writable. intros Hw H.
  destruct (handle_message_cases v m s res s' H) as [(_ & _ & Hr & _)|(_ & Hr & _)];
    rewrite Hr; [|exact Hw].
  destruct (store_keeps_access (reg s) (mk_settings (negb (discard s)))) as [-> ->].
  exact Hw.
Qed.

Lemma handle_message_persist_toggle v m s res s' :
  key_writable (reg s) -> is_toggle m -> handle_message v m s = Some (res, s') ->
  flag_persisted s'.
Proof.
  intros (Hacc & Hro) Ht H. unfold flag_persisted.
  destruct (handle_message_toggle v m s res s' Ht H) as (Hd & Hr & _).
  rewrite Hd, Hr. apply store_load_roundtrip; assumption.
Qed.

Lemma handle_message_persist v m s res s' :
  key_writable (reg s) -> flag_persisted s -> handle_message v m s = Some (res, s') ->
  flag_persisted s'.
Proof.
  intros Hw Hp H.
  destruct (handle_message_cases v m s res s' H) as [(Ht & _)|(Hd & Hr & _)].
  - exact (handle_message_persist_toggle v m s res s' Hw Ht H).
  - unfold flag_persisted. rewrite Hd, Hr. exact Hp.
Qed.

Lemma run_menu v ms : forall s s',
  menu_consistent s -> run v ms s = Some s' -> menu_consistent s'.
Proof.
  induction ms as [|m ms IH]; intros s s' Hs H; cbn in H.
  - injection H as <-. exact Hs.
  - destruct (handle_message v m s) as [[res s1]|] eqn:Hm; [|discriminate].
    exact (IH s1 s' (handle_message_menu v m s res s1 Hs Hm) H).
Qed.

Lemma run_persist v ms : forall s s',
  key_writable (reg s) -> flag_persisted s -> run v ms s = Some s' -> flag_persisted s'.
Proof.
  induction ms as [|m ms IH]; intros s s' Hw Hp H; cbn in H.
  - injection H as <-. exact Hp.
  - destruct (handle_message v m s) as [[res s1]|] eqn:Hm; [|discriminate].
    exact (IH s1 s' (handle_message_writable v m s res s1 Hw Hm)
             (handle_message_persist v m s res s1 Hw Hp Hm) H).
Qed.

Lemma run_toggle v ms : forall s s',
  key_writable (reg s) -> Exists is_toggle ms -> run v ms s = Some s' -> flag_persisted s'.
Proof.
  induction ms as [|m ms IH]; intros s s' Hw Hex H; [inversion Hex|]. cbn in H.
  destruct (handle_message v m s) as [[res s1]|] eqn:Hm; [|discriminate].
  pose proof (handle_message_writable v m s res s1 Hw Hm) as Hw1.
  inversion Hex as [? ? Ht|? ? Hrest]; subst.
  - exact (run_persist v ms s1 s' Hw1 (handle_message_persist_toggle v m s res s1 Hw Ht Hm) H).
  - exact (IH s1 s' Hw1 Hrest H).
Qed.

Lemma create_state_menu r menu0 ef :
  menu_check IDM_DISCARD_FILES menu0 = None ->
  menu_consistent (create_state r menu0 ef).
Proof.
  intros Hm. unfold menu_consistent, create_state. cbn [sys_menu discard].
  rewrite menu_check_app, Hm. cbn. reflexivity.
Qed.

Lemma size_width_height_decode lp w h k :
  (0 <= w < 65536)%Z -> (0 <= h < 65536)%Z ->
  lp = (w + 65536 * h + 2 ^ 32 * k)%Z ->
  size_width lp = (w - 12)%Z /\ size_height lp = (h - 12)%Z.
Proof.
  intros Hw Hh ->. unfold size_width, size_height, lparam_as_u32.
  replace (2 ^ 32 - 1)%Z with (Z.ones 32) by reflexivity.
  replace 65535%Z with (Z.ones 16) by reflexivity.
  rewrite !Z.land_ones, Z.shiftr_div_pow2 by lia.
  assert (H32 : ((w + 65536 * h + 2 ^ 32 * k) mod 2 ^ 32 = w + 65536 * h)%Z)
    by (symmetry; apply (Z.mod_unique _ _ k); cbn; lia).
  assert (H16 : ((w + 65536 * h) mod 2 ^ 16 = w)%Z)
    by (symmetry; apply (Z.mod_unique _ _ h); cbn; lia).
  assert (D16 : ((w + 65536 * h) / 2 ^ 16 = h)%Z)
    by (symmetry; apply (Z.div_unique _ _ _ w); cbn; lia).
  rewrite H32, H16, D16. split; reflexivity.
Qed.

Lemma size_width_height_bounds lp :
  (-12 <= size_width lp <= 65523)%Z /\ (-12 <= size_height lp <= 65523)%Z.
Proof.
  unfold size_width, size_height, lparam_as_u32.
  replace (2 ^ 32 - 1)%Z with (Z.ones 32) by reflexivity.
  rewrite Z.land_ones by lia.
  replace 65535%Z with (Z.ones 16) by reflexivity.
  rewrite Z.land_ones, Z.shiftr_div_pow2 by lia.
  pose proof (Z.mod_pos_bound lp (2 ^ 32) ltac:(lia)).
  pose proof (Z.mod_pos_bound (lp mod 2 ^ 32) (2 ^ 16) ltac:(lia)).
  assert (0 <= lp mod 2 ^ 32 / 2 ^ 16 < 2 ^ 16)%Z.
  { split; [apply Z.div_pos; lia|]. apply Z.div_lt_upper_bound; lia. }
  cbn in *. lia.
Qed.

End MainWinProps.

(** ** Extra properties *)

(** X1: [AppSettings::store] followed by [AppSettings::load] gives back the
    stored flag whenever the settings key can be opened, or created, with
    write access. *)
Theorem settings_store_then_load r s :
  Settings.REG_KEY_NAME ∉ Settings.no_access r ->
  Settings.REG_KEY_NAME ∉ Settings.read_only r ->
  Settings.discard_flag (Settings.load (SettingsWrite.store s r)) = Settings.discard_flag s.
Proof. intros Hacc Hro. exact (store_load_roundtrip r s Hacc Hro). Qed.

Lemma settings_store_then_load_witness :
  (Settings.REG_KEY_NAME ∉ Settings.no_access reg_empty) /\
  (Settings.REG_KEY_NAME ∉ Settings.read_only reg_empty) /\
  Settings.discard_flag (Settings.load (SettingsWrite.store (Settings.mk_settings true) reg_empty)) =
    Settings.discard_flag (Settings.mk_settings true).
Proof.
  assert (H1 : Settings.REG_KEY_NAME ∉ Settings.no_access reg_empty) by (cbn; set_solver).
  assert (H2 : Settings.REG_KEY_NAME ∉ Settings.read_only reg_empty) by (cbn; set_solver).
  split; [exact H1|]. split; [exact H2|]. exact (settings_store_then_load reg_empty _ H1 H2).
Defined.



(** X3: when the settings key cannot be opened, [AppSettings::store]
    changes nothing and [AppSettings::load] reads the flag as false. *)
Theorem settings_locked_key r s :
  Settings.REG_KEY_NAME ∈ Settings.no_access r ->
  SettingsWrite.store s r = r /\ Settings.discard_flag (Settings.load r) = false.
Proof.
  intros H. unfold SettingsWrite.store, SettingsWrite.RegCreateKeyW,
    Settings.discard_flag, Settings.load, Settings.RegOpenKeyW.
  rewrite (bool_decide_eq_true_2 _ H). split; reflexivity.
Qed.

Lemma settings_locked_key_witness :
  SettingsWrite.store (Settings.mk_settings true) reg_locked = reg_locked /\
  Settings.discard_flag (Settings.load reg_locked) = false.
Proof. apply settings_locked_key. cbn. set_solver. Defined.

(** X4: the flag [AppSettings::load] reads from a stored "discard" value:
    a value of at most four bytes (zero-padded to a u32) gives true exactly
    when one of its bytes is non-zero; a longer value does not fit the
    4-byte buffer and reads as false. *)
Theorem settings_load_value r k d :
  Settings.RegOpenKeyW r Settings.REG_KEY_NAME = Settings.WinOk k ->
  Settings.values k !! Settings.REG_VALUE_NAME = Some d ->
  Settings.discard_flag (Settings.load r) =
    bool_decide (length d <= 4)%nat && existsb (fun b => negb (Byte.eqb b Byte.x00)) d.
Proof. intros Ho Hv. exact (load_of_value r k d Ho Hv). Qed.

Lemma settings_load_value_witness :
  Settings.discard_flag (Settings.load (reg_with_value [Byte.x00; Byte.x01])) = true /\
  Settings.discard_flag (Settings.load (reg_with_value [Byte.x01; Byte.x00; Byte.x00; Byte.x00; Byte.x00])) = false.
Proof.
  split.
  - exact (settings_load_value (reg_with_value [Byte.x00; Byte.x01])
             (Settings.mk_key {[ Settings.REG_VALUE_NAME := [Byte.x00; Byte.x01] ]}) _
             (eq_refl _) (eq_refl _)).
  - exact (settings_load_value (reg_with_value [Byte.x01; Byte.x00; Byte.x00; Byte.x00; Byte.x00])
             (Settings.mk_key {[ Settings.REG_VALUE_NAME := [Byte.x01; Byte.x00; Byte.x00; Byte.x00; Byte.x00] ]}) _
             (eq_refl _) (eq_refl _)).
Defined.

(** X5: from [MainWindow::create] on, after any sequence of messages the
    handler processed without panicking, the check mark of the "Discard
    received files" menu item is the flag in memory (when the default
    system menu has no item with that id); once that command has been
    processed at least once, and the settings key can be opened or created
    with write access, the flag [AppSettings::load] reads from the registry
    is the flag in memory too. *)
Theorem main_window_flag_consistent v r menu0 ef ms s' :
  MainWin.menu_check MainWin.IDM_DISCARD_FILES menu0 = None ->
  MainWin.run v ms (MainWin.create_state r menu0 ef) = Some s' ->
  MainWin.menu_check MainWin.IDM_DISCARD_FILES (MainWin.sys_menu s') = Some (MainWin.discard s') /\
  (Settings.REG_KEY_NAME ∉ Settings.no_access r ->
   Settings.REG_KEY_NAME ∉ Settings.read_only r ->
   Exists (fun m => MainWin.msg m = MainWin.WM_SYSCOMMAND /\
                    MainWin.wparam m = MainWin.IDM_DISCARD_FILES) ms ->
   Settings.discard_flag (Settings.load (MainWin.reg s')) = MainWin.discard s').
Proof.
  intros Hm Hrun. split.
  - exact (run_menu v ms _ s' (create_state_menu r menu0 ef Hm) Hrun).
  - intros Hacc Hro Hex.
    exact (run_toggle v ms (MainWin.create_state r menu0 ef) s' (conj Hacc Hro) Hex Hrun).
Qed.

Lemma main_window_flag_consistent_witness :
  exists s',
    MainWin.run "1.0.0" [msg_create; msg_size 0; msg_toggle; msg_close; msg_toggle; msg_toggle]
      (MainWin.create_state reg_empty [] false) = Some s' /\
    MainWin.menu_check MainWin.IDM_DISCARD_FILES (MainWin.sys_menu s') = Some true /\
    Settings.discard_flag (Settings.load (MainWin.reg s')) = true.
Proof.
  remember (MainWin.run "1.0.0" [msg_create; msg_size 0; msg_toggle; msg_close; msg_toggle; msg_toggle]
      (MainWin.create_state reg_empty [] false)) as o eqn:Ho.
  assert (Hd : option_map MainWin.discard o = Some true) by (rewrite Ho; vm_compute; reflexivity).
  destruct o as [s'|]; [|discriminate].
  injection Hd as Hd.
  destruct (main_window_flag_consistent "1.0.0" reg_empty [] false
              [msg_create; msg_size 0; msg_toggle; msg_close; msg_toggle; msg_toggle] s')
    as (H1 & H2).
  - reflexivity.
  - symmetry. exact Ho.
  - exists s'. rewrite <- Hd. split; [reflexivity|]. split; [exact H1|].
    apply H2.
    + cbn. set_solver.
    + cbn. set_solver.
    + apply Exists_cons_tl, Exists_cons_tl, Exists_cons_hd. split; reflexivity.
Defined.

(** X6: no message other than the "Discard received files" system command
    changes the flag, the registry or the system menu. *)
Theorem main_window_other_messages_keep_flag v m s res s' :
  MainWin.handle_message v m s = Some (res, s') ->
  ~ (MainWin.msg m = MainWin.WM_SYSCOMMAND /\ MainWin.wparam m = MainWin.IDM_DISCARD_FILES) ->
  MainWin.discard s' = MainWin.discard s /\ MainWin.reg s' = MainWin.reg s /\
  MainWin.sys_menu s' = MainWin.sys_menu s.
Proof. intros H Hne. exact (handle_message_other v m s res s' H Hne). Qed.

Lemma main_window_other_messages_keep_flag_witness :
  let s := MainWin.create_state reg_empty [] false in
  MainWin.handle_message "1.0.0" msg_create s =
    Some (MainWin.Processed, MainWin.mk_state false reg_empty
           [MainWin.mk_item MainWin.IDM_DISCARD_FILES "Discard received files" false]
           [MainWin.geometry_zero]
           [MainWin.banner "1.0.0"; MainWin.discard_line false] false true false) /\
  MainWin.discard s = false.
Proof.
  intros s.
  assert (H : MainWin.handle_message "1.0.0" msg_create s =
    Some (MainWin.Processed, MainWin.mk_state false reg_empty
           [MainWin.mk_item MainWin.IDM_DISCARD_FILES "Discard received files" false]
           [MainWin.geometry_zero]
           [MainWin.banner "1.0.0"; MainWin.discard_line false] false true false))
    by (vm_compute; reflexivity).
  split; [exact H|].
  destruct (main_window_other_messages_keep_flag "1.0.0" msg_create s _ _ H) as (Hd & _).
  - cbn. intros (Hm & _). discriminate.
  - cbn in Hd. exact (eq_sym Hd).
Defined.

(** X7: a system command other than "Discard received files" (close, move,
    minimize, ...) is left to [DefWindowProcW], with nothing changed. *)
Theorem main_window_syscommand_default v m s :
  MainWin.msg m = MainWin.WM_SYSCOMMAND -> MainWin.wparam m <> MainWin.IDM_DISCARD_FILES ->
  option_map (fun '(res, s') => (MainWin.window_proc_result res, s')) (MainWin.handle_message v m s) =
    Some (MainWin.DefWindowProc, s).
Proof.
  intros Hm Hw. unfold MainWin.handle_message. rewrite Hm.
  rewrite (proj2 (N.eqb_neq _ _) Hw). reflexivity.
Qed.

Lemma main_window_syscommand_default_witness :
  option_map (fun '(res, s') => (MainWin.window_proc_result res, s'))
    (MainWin.handle_message "1.0.0" msg_close (MainWin.create_state reg_empty [] false)) =
    Some (MainWin.DefWindowProc, MainWin.create_state reg_empty [] false).
Proof. apply main_window_syscommand_default; [reflexivity|discriminate]. Defined.

(** X8: WM_SIZE moves the first child (the edit control) to (6, 6) with the
    client width and height from the low and high words of [lparam], less
    12; the bits of [lparam] above the low 32 are ignored. *)
Theorem main_window_size_moves_edit v s c cs lp w h k :
  (0 <= w < 65536)%Z -> (0 <= h < 65536)%Z -> lp = (w + 65536 * h + 2 ^ 32 * k)%Z ->
  MainWin.children s = c :: cs ->
  MainWin.handle_message v (msg_size lp) s =
    Some (MainWin.Processed,
          MainWin.mk_state (MainWin.discard s) (MainWin.reg s) (MainWin.sys_menu s)
            (MainWin.mk_geometry (Some 6%Z) (Some 6%Z) (Some (w - 12)%Z) (Some (h - 12)%Z) :: cs)
            (MainWin.info_log s) (MainWin.quit_posted s) (MainWin.listener_spawned s)
            (MainWin.edit_build_fails s)).
Proof.
  intros Hw Hh Hlp Hc.
  destruct (size_width_height_decode lp w h k Hw Hh Hlp) as (Hsw & Hsh).
  unfold MainWin.handle_message. cbn [msg_size MainWin.msg MainWin.wparam MainWin.lparam].
  rewrite Hc, Hsw, Hsh. reflexivity.
Qed.

Lemma main_window_size_moves_edit_witness :
  MainWin.handle_message "1.0.0" (msg_size (700 + 65536 * 500 + 2 ^ 32 * 3)%Z)
    (MainWin.mk_state false reg_empty [] [MainWin.geometry_zero] [] false true false) =
    Some (MainWin.Processed,
          MainWin.mk_state false reg_empty []
            [MainWin.mk_geometry (Some 6%Z) (Some 6%Z) (Some (700 - 12)%Z) (Some (500 - 12)%Z)]
            [] false true false).
Proof.
  apply (main_window_size_moves_edit "1.0.0"
           (MainWin.mk_state false reg_empty [] [MainWin.geometry_zero] [] false true false)
           MainWin.geometry_zero [] _ 700 500 3); (lia || reflexivity).
Defined.

(** X9: whatever [lparam] holds, the width and height the WM_SIZE handler
    computes lie between -12 and 65523. *)
Theorem main_window_size_bounds lp :
  (-12 <= MainWin.size_width lp <= 65523)%Z /\ (-12 <= MainWin.size_height lp <= 65523)%Z.
Proof. exact (size_width_height_bounds lp). Qed.

(** X10: once WM_CREATE has built the edit control, WM_SIZE resizes it:
    the edit control is the window's only child and is moved to (6, 6)
    with the size computed from [lparam]. *)
Theorem main_window_create_then_size v r menu0 lp :
  option_map MainWin.children
    (MainWin.run v [msg_create; msg_size lp] (MainWin.create_state r menu0 false)) =
    Some [MainWin.mk_geometry (Some 6%Z) (Some 6%Z)
            (Some (MainWin.size_width lp)) (Some (MainWin.size_height lp))].
Proof. reflexivity. Qed.

(** X20: [MainWindow::new] never takes the flag from the registry: the
    query in [load_discard_flag] passes a non-NULL [lpReserved] and fails,
    so the window starts with the flag false, whatever the registry holds
    (also when [AppSettings::load] reads true from it). *)
Theorem main_window_starts_unset r menu0 ef :
  MainWin.new_flag r = false /\
  MainWin.discard (MainWin.create_state r menu0 ef) = false /\
  MainWin.reg (MainWin.create_state r menu0 ef) = r.
Proof.
  split; [exact (new_flag_false r)|].
  split; [exact (new_flag_false r)|reflexivity].
Qed.

(** X21: when the settings key exists but opens without write access,
    [AppSettings::store] ignores the failed [RegSetKeyValueW] and leaves the
    registry as it was, so [AppSettings::load] still reads the old flag. *)
Theorem settings_read_only_key r s :
  Settings.REG_KEY_NAME ∈ Settings.read_only r ->
  is_Some (Settings.subkeys r !! Settings.REG_KEY_NAME) ->
  SettingsWrite.store s r = r /\
  Settings.discard_flag (Settings.load (SettingsWrite.store s r)) =
    Settings.discard_flag (Settings.load r).
Proof.
  intros Hro Hk. rewrite (store_read_only r s Hro Hk). split; reflexivity.
Qed.

Lemma settings_read_only_key_witness :
  SettingsWrite.store (Settings.mk_settings true) reg_read_only = reg_read_only /\
  Settings.discard_flag (Settings.load (SettingsWrite.store (Settings.mk_settings true) reg_read_only)) =
    Settings.discard_flag (Settings.load reg_read_only) /\
  Settings.discard_flag (Settings.load reg_read_only) = false.
Proof.
  destruct (settings_read_only_key reg_read_only (Settings.mk_settings true)) as (H1 & H2).
  - cbn. set_solver.
  - vm_compute. eexists. reflexivity.
  - split; [exact H1|]. split; [exact H2|]. vm_compute. reflexivity.
Defined.

(** ** Further properties: the listener *)

Lemma handle_stream_cases s w l :
  (exists l', handle_stream s w l = Panicked w l') \/
  (exists a t, files w !! alloc_path w t = None /\
     handle_stream s w l = session_outcome w l a t (reads s)).
Proof.
  destruct (peer_addr s) as [a|e] eqn:Hpeer.
  2:{ left. exists l. unfold handle_stream. rewrite Hpeer. unfold_M. reflexivity. }
  destruct (Z.ltb (clock s) 0) eqn:Hc.
  - left. exists (l ++ [Info_incoming a]).
    unfold handle_stream, duration_since_epoch. rewrite Hpeer, Hc. unfold_M. reflexivity.
  - apply Z.ltb_ge in Hc.
    destruct (allocate_spec (Z.to_N (clock s)) w (l ++ [Info_incoming a]))
      as [(t & Heq & _ & Hfree & _) | (Heq & _)].
    + right. exists a, t. split; [exact Hfree|].
      exact (handle_stream_alloc s w l a t Hpeer Hc Heq).
    + left. exists (l ++ [Info_incoming a]).
      exact (handle_stream_alloc_panics s w l a _ _ Hpeer Hc Heq).
Qed.

Lemma session_outcome_extends w l a t rs :
  files w !! alloc_path w t = None ->
  files w ⊆ files (outcome_world (session_outcome w l a t rs)).
Proof.
  intros Hfree. unfold session_outcome.
  destruct (stream_chunks rs) as [chs err].
  destruct (bool_decide (alloc_path w t ∈ denied w)); [reflexivity|].
  destruct (disk_full w && bool_decide (chs <> [])).
  - cbn. apply insert_subseteq. exact Hfree.
  - destruct err; cbn; apply insert_subseteq; exact Hfree.
Qed.

Lemma session_outcome_done w l a t rs w' l' :
  files w !! alloc_path w t = None ->
  session_outcome w l a t rs = Done tt w' l' ->
  size (files w') = S (size (files w)) /\ length l' = (length l + 2)%nat.
Proof.
  intros Hfree H. unfold session_outcome in H.
  destruct (stream_chunks rs) as [chs err].
  destruct (bool_decide (alloc_path w t ∈ denied w)); [discriminate|].
  destruct (disk_full w && bool_decide (chs <> [])); [discriminate|].
  destruct err; [discriminate|].
  injection H as <- <-. cbn [files with_files].
  rewrite map_size_insert_None by exact Hfree.
  rewrite !length_app. cbn. split; [reflexivity|lia].
Qed.

Lemma handle_stream_extends s w l :
  files w ⊆ files (outcome_world (handle_stream s w l)).
Proof.
  destruct (handle_stream_cases s w l) as [(l' & ->) | (a & t & Hfree & ->)].
  - reflexivity.
  - apply session_outcome_extends. exact Hfree.
Qed.

Lemma handle_stream_done s w l w' l' :
  handle_stream s w l = Done tt w' l' ->
  size (files w') = S (size (files w)) /\ length l' = (length l + 2)%nat.
Proof.
  intros H. destruct (handle_stream_cases s w l) as [(l1 & Heq) | (a & t & Hfree & Heq)];
    rewrite Heq in H; [discriminate|].
  exact (session_outcome_done w l a t (reads s) w' l' Hfree H).
Qed.

Lemma for_each_incoming_extends inc : forall w l,
  files w ⊆ files (outcome_world (for_each_incoming inc w l)).
Proof.
  induction inc as [|x inc IH]; intros w l; [reflexivity|].
  destruct x as [s|e]; cbn [for_each_incoming]; [|reflexivity].
  unfold mbind, M_bind.
  pose proof (handle_stream_extends s w l) as Hs.
  destruct (handle_stream s w l) as [[] w1 l1|e w1 l1|w1 l1]; cbn in Hs |- *; try exact Hs.
  transitivity (files w1); [exact Hs|apply IH].
Qed.

Lemma for_each_incoming_done inc : forall w l w' l',
  for_each_incoming inc w l = Done tt w' l' ->
  Forall is_accepted inc /\
  size (files w') = (size (files w) + length inc)%nat /\
  length l' = (length l + 2 * length inc)%nat.
Proof.
  induction inc as [|x inc IH]; intros w l w' l' H.
  - cbn in H. injection H as <- <-. split; [constructor|]. cbn. lia.
  - destruct x as [s|e]; cbn [for_each_incoming] in H; [|discriminate].
    unfold mbind, M_bind in H.
    destruct (handle_stream s w l) as [[] w1 l1|e w1 l1|w1 l1] eqn:Hs; try discriminate.
    destruct (handle_stream_done s w l w1 l1 Hs) as (Hsz & Hlen).
    destruct (IH w1 l1 w' l' H) as (Hok & Hsz' & Hlen').
    split; [constructor; [exact I|exact Hok]|]. cbn [length]. lia.
Qed.

Lemma start_raw_listener_extends inc w l :
  files w ⊆ files (outcome_world (start_raw_listener inc w l)).
Proof.
  unfold start_raw_listener, map_err_warn, tcp_bind. unfold_M. fold (bind_error w).
  destruct (bind_error w) as [e|]; cbv beta iota; [reflexivity|].
  pose proof (for_each_incoming_extends inc w (l ++ [Info_started])) as H.
  destruct (for_each_incoming inc w (l ++ [Info_started])); exact H.
Qed.

(** X11: whatever happens in the listener (sessions saved, an I/O error, or
    a panic), a file that existed before it started keeps its contents. *)
Theorem listener_keeps_existing_files inc w l p c :
  files w !! p = Some c ->
  files (outcome_world (start_raw_listener inc w l)) !! p = Some c.
Proof.
  intros H. eapply lookup_weaken; [exact H|]. apply start_raw_listener_extends.
Qed.

Lemma listener_keeps_existing_files_witness :
  files (outcome_world (start_raw_listener [Ok (stream_at_100 [ReadOk hello])] w_taken [])) !! p100 =
    Some [Byte.x41].
Proof. apply listener_keeps_existing_files. reflexivity. Defined.

(** X12: when the listener finishes without error, every incoming item was
    an accepted connection, each of them added exactly one new file, and
    the log holds the start line plus two lines per connection. *)
Theorem listener_done_counts inc w l w' l' :
  start_raw_listener inc w l = Done tt w' l' ->
  Forall is_accepted inc /\
  size (files w') = (size (files w) + length inc)%nat /\
  length l' = (length l + 1 + 2 * length inc)%nat.
Proof.
  intros H. unfold start_raw_listener, map_err_warn, tcp_bind in H. unfold_M. fold (bind_error w) in H.
  destruct (bind_error w); cbv beta iota in H; [discriminate|].
  destruct (for_each_incoming inc w (l ++ [Info_started])) as [[] w1 l1|e w1 l1|w1 l1] eqn:Hf;
    try discriminate.
  injection H as <- <-.
  destruct (for_each_incoming_done inc w _ w1 l1 Hf) as (Hok & Hsz & Hlen).
  rewrite length_app in Hlen. cbn in Hlen. split; [exact Hok|]. split; [exact Hsz|lia].
Qed.

Lemma listener_done_counts_witness :
  exists w' l',
    start_raw_listener [Ok (stream_at_100 [ReadOk hello]); Ok (stream_at_100 [])] w_taken [] =
      Done tt w' l' /\
    size (files w') = 3%nat.
Proof.
  destruct (start_raw_listener [Ok (stream_at_100 [ReadOk hello]); Ok (stream_at_100 [])] w_taken [])
    as [[] w' l'|e w' l'|w' l'] eqn:H; try (vm_compute in H; discriminate).
  exists w', l'. split; [reflexivity|].
  destruct (listener_done_counts _ _ _ _ _ H) as (_ & Hsz & _).
  rewrite Hsz. vm_compute. reflexivity.
Defined.

(** X13: when binding 0.0.0.0:9100 fails, the listener returns that error at
    once: no connection is handled, nothing on disk changes, and the only
    log line is the warning. *)
Theorem listener_bind_error inc w l e :
  bind_error w = Some e ->
  start_raw_listener inc w l = Failed e w (l ++ [Warn_err e]).
Proof.
  intros H. unfold start_raw_listener, map_err_warn, tcp_bind. unfold_M. fold (bind_error w).
  rewrite H. reflexivity.
Qed.

Lemma listener_bind_error_witness :
  start_raw_listener [Ok (stream_at_100 [ReadOk hello])]
    (mk_world ∅ ∅ false (Some exe_path) (fun _ => Some AddrInUse)) [] =
    Failed AddrInUse (mk_world ∅ ∅ false (Some exe_path) (fun _ => Some AddrInUse)) ([] ++ [Warn_err AddrInUse]).
Proof. apply listener_bind_error. reflexivity. Defined.

(** X14: a connection handled while the system clock reads before the Unix
    epoch panics ([duration_since(UNIX_EPOCH).unwrap()]) right after the
    "Incoming connection" line, before any file is created. *)
Theorem session_pre_epoch_panics s w l a :
  peer_addr s = Ok a -> (clock s < 0)%Z ->
  handle_stream s w l = Panicked w (l ++ [Info_incoming a]).
Proof.
  intros Hpeer Hc. unfold handle_stream, duration_since_epoch.
  rewrite Hpeer, (proj2 (Z.ltb_lt _ _) Hc). unfold_M. reflexivity.
Qed.

Lemma session_pre_epoch_panics_witness :
  handle_stream (mk_stream (Ok peer) (-5) [ReadOk hello]) w_empty [] =
    Panicked w_empty ([] ++ [Info_incoming peer]).
Proof. apply session_pre_epoch_panics; [reflexivity|cbn; lia]. Defined.

(** ** Further properties: UTF-16 and the logger *)

Section Utf16Props.
Import Utf16.

Lemma lor_shiftl_low a k n :
  (0 <= n)%Z -> (0 <= k < 2 ^ n)%Z ->
  Z.lor (Z.shiftl a n) k = (Z.shiftl a n + k)%Z.
Proof.
  intros Hn Hk.
  assert (Hand : Z.land (Z.shiftl a n) k = 0%Z).
  { apply Z.bits_inj'. intros i Hi. rewrite Z.land_spec, Z.bits_0.
    destruct (Z.lt_ge_cases i n).
    - rewrite Z.shiftl_spec_low by lia. reflexivity.
    - rewrite <- (Z.mod_small k (2 ^ n)) by lia.
      rewrite Z.mod_pow2_bits_high by lia. apply andb_false_r. }
  rewrite <- (Z.lxor_lor _ _ Hand). symmetry. apply Z.add_nocarry_lxor. exact Hand.
Qed.

Lemma land_1023 x : Z.land x 1023 = (x mod 1024)%Z.
Proof. replace 1023%Z with (Z.ones 10) by reflexivity. rewrite Z.land_ones by lia. reflexivity. Qed.

Lemma encode_pair_spec c :
  (65535 < c < 1114112)%Z ->
  exists j k,
    encode_utf16_char c = [(55296 + j)%Z; (56320 + k)%Z] /\
    (0 <= j < 1024)%Z /\ (0 <= k < 1024)%Z /\ c = (65536 + 1024 * j + k)%Z.
Proof.
  intros Hc. unfold encode_utf16_char.
  rewrite (proj2 (Z.leb_gt c 65535)) by lia.
  set (c' := (c - 65536)%Z).
  exists (c' / 1024)%Z, (c' mod 1024)%Z.
  assert (Hj : (0 <= c' / 1024 < 1024)%Z).
  { split; [apply Z.div_pos; lia|]. apply Z.div_lt_upper_bound; lia. }
  assert (Hk : (0 <= c' mod 1024 < 1024)%Z) by (apply Z.mod_pos_bound; lia).
  rewrite Z.shiftr_div_pow2, land_1023 by lia.
  replace (2 ^ 10)%Z with 1024%Z by reflexivity.
  rewrite (Z.lor_comm _ 55296), (Z.lor_comm _ 56320).
  replace 55296%Z with (Z.shiftl 54 10) by reflexivity.
  replace 56320%Z with (Z.shiftl 55 10) by reflexivity.
  rewrite !lor_shiftl_low by (cbn; lia).
  split; [reflexivity|]. split; [exact Hj|]. split; [exact Hk|].
  pose proof (Z.div_mod c' 1024 ltac:(lia)). lia.
Qed.

Lemma decode_encode_char c rest :
  is_scalar c = true ->
  decode_utf16_lossy (encode_utf16_char c ++ rest) = c :: decode_utf16_lossy rest.
Proof.
  intros Hs. unfold is_scalar in Hs.
  apply andb_true_iff in Hs as [Hs Hsur]. apply andb_true_iff in Hs as [H0 H1].
  apply Z.leb_le in H0. apply Z.ltb_lt in H1. apply negb_true_iff in Hsur.
  destruct (Z.leb_spec c 65535) as [Hsmall|Hbig].
  - unfold encode_utf16_char. rewrite (proj2 (Z.leb_le c 65535) Hsmall). cbn [app].
    cbn [decode_utf16_lossy]. unfold is_utf16_surrogate. rewrite Hsur. reflexivity.
  - destruct (encode_pair_spec c ltac:(lia)) as (j & k & -> & Hj & Hk & Hc).
    cbn [app decode_utf16_lossy]. unfold is_utf16_surrogate.
    rewrite (proj2 (Z.leb_le 55296 (55296 + j))) by lia.
    rewrite (proj2 (Z.leb_le (55296 + j) 57343)) by lia.
    rewrite (proj2 (Z.leb_gt 56320 (55296 + j))) by lia.
    rewrite (proj2 (Z.ltb_ge (56320 + k) 56320)) by lia.
    rewrite (proj2 (Z.ltb_ge 57343 (56320 + k))) by lia.
    cbn [negb andb orb].
    rewrite !land_1023.
    assert (Hmj : ((55296 + j) mod 1024 = j)%Z)
      by (symmetry; apply (Z.mod_unique _ _ 54); lia).
    assert (Hmk : ((56320 + k) mod 1024 = k)%Z)
      by (symmetry; apply (Z.mod_unique _ _ 55); lia).
    rewrite Hmj, Hmk.
    rewrite lor_shiftl_low by (cbn; lia).
    rewrite Z.shiftl_mul_pow2 by lia. replace (2 ^ 10)%Z with 1024%Z by reflexivity.
    f_equal. lia.
Qed.

Lemma decode_encode s :
  Forall (fun c => is_scalar c = true) s ->
  decode_utf16_lossy (encode_utf16 s) = s.
Proof.
  induction 1 as [|c s Hc Hs IH]; [reflexivity|].
  unfold encode_utf16. cbn [flat_map]. rewrite decode_encode_char by exact Hc.
  fold (encode_utf16 s). rewrite IH. reflexivity.
Qed.

Lemma encode_char_nonzero c :
  is_scalar c = true -> c <> 0%Z -> Forall (fun u => u <> 0%Z) (encode_utf16_char c).
Proof.
  intros Hs Hnz. unfold is_scalar in Hs.
  apply andb_true_iff in Hs as [Hs _]. apply andb_true_iff in Hs as [H0 H1].
  apply Z.leb_le in H0. apply Z.ltb_lt in H1.
  destruct (Z.leb_spec c 65535) as [Hsmall|Hbig].
  - unfold encode_utf16_char. rewrite (proj2 (Z.leb_le c 65535) Hsmall).
    constructor; [exact Hnz|constructor].
  - destruct (encode_pair_spec c ltac:(lia)) as (j & k & -> & Hj & Hk & _).
    constructor; [lia|]. constructor; [lia|constructor].
Qed.

Lemma upto_nul_app_nonzero us rest :
  Forall (fun u => u <> 0%Z) us -> upto_nul (us ++ rest) = us ++ upto_nul rest.
Proof.
  induction 1 as [|u us Hu Hus IH]; [reflexivity|].
  cbn [app upto_nul]. rewrite (proj2 (Z.eqb_neq u 0) Hu), IH. reflexivity.
Qed.

Lemma upto_nul_encode s :
  Forall (fun c => is_scalar c = true) s ->
  upto_nul (encode_utf16 s ++ [0%Z]) = encode_utf16 (upto_nul s).
Proof.
  induction 1 as [|c s Hc Hs IH]; [reflexivity|].
  unfold encode_utf16 in *. cbn [flat_map upto_nul].
  destruct (Z.eqb_spec c 0) as [->|Hnz].
  - unfold encode_utf16_char. cbn. reflexivity.
  - rewrite <- app_assoc, upto_nul_app_nonzero by exact (encode_char_nonzero c Hc Hnz).
    rewrite IH. reflexivity.
Qed.

Lemma upto_nul_id s : Forall (fun c => c <> 0%Z) s -> upto_nul s = s.
Proof.
  induction 1 as [|c s Hc Hs IH]; [reflexivity|].
  cbn. rewrite (proj2 (Z.eqb_neq c 0) Hc), IH. reflexivity.
Qed.

Lemma upto_nul_scalars s :
  Forall (fun c => is_scalar c = true) s -> Forall (fun c => is_scalar c = true) (upto_nul s).
Proof.
  induction 1 as [|c s Hc Hs IH]; cbn; [constructor|].
  destruct (c =? 0)%Z; [constructor|]. constructor; assumption.
Qed.

End Utf16Props.

Section LoggerProps.
Import Utf16 Logger.

(** A unit a C string and UTF-16 carry unchanged: a scalar other than
    NUL. *)
Definition plain (c : Z) : Prop := is_scalar c = true /\ c <> 0%Z.

Lemma string_scalars_app a b :
  string_scalars (a ++ b)%string = string_scalars a ++ string_scalars b.
Proof.
  unfold string_scalars. induction a as [|ch a IH]; [reflexivity|].
  simpl. f_equal. exact IH.
Qed.

Lemma ascii_plain c : (0 < c < 128)%Z -> plain c.
Proof.
  intros Hc. split; [|lia]. unfold is_scalar.
  rewrite (proj2 (Z.leb_le 0 c)), (proj2 (Z.ltb_lt c 1114112)), (proj2 (Z.leb_gt 55296 c)) by lia.
  reflexivity.
Qed.

Definition printable (s : string) : Prop :=
  Forall (fun c => (0 < c < 128)%Z) (string_scalars s).

Lemma printable_app a b : printable a -> printable b -> printable (a ++ b)%string.
Proof. unfold printable. rewrite string_scalars_app. apply Forall_app_2. Qed.

Lemma printable_uint_digits d : printable (uint_digits d).
Proof.
  unfold printable. induction d; cbn; repeat constructor; try assumption; cbn; lia.
Qed.

Lemma printable_zeros n : printable (zeros n).
Proof. unfold printable. induction n; cbn; repeat constructor; try assumption; cbn; lia. Qed.

Lemma printable_pad0 w n : printable (pad0 w n).
Proof. apply printable_app; [apply printable_zeros|apply printable_uint_digits]. Qed.

Lemma printable_fmt_i32 y : printable (fmt_i32 y).
Proof.
  unfold fmt_i32. destruct (y <? 0)%Z.
  - unfold printable. cbn. constructor; [cbn; lia|]. apply printable_uint_digits.
  - apply printable_uint_digits.
Qed.

Lemma printable_level_name l : printable (level_name l).
Proof. unfold printable. destruct l; cbn; repeat constructor; cbn; lia. Qed.

Lemma printable_literal (s : string) :
  forallb (fun c => (0 <? c)%Z && (c <? 128)%Z) (string_scalars s) = true -> printable s.
Proof.
  intros H. unfold printable. apply Forall_forall. intros c Hc.
  rewrite forallb_forall in H. specialize (H c (proj1 (list_elem_of_In _ _) Hc)).
  apply andb_true_iff in H as [H1 H2]. apply Z.ltb_lt in H1, H2. lia.
Qed.

Lemma format_message_plain lvl t a :
  Forall plain a -> Forall plain (format_message [] lvl t a).
Proof.
  intros Ha. unfold format_message. cbn [app].
  assert (Hp : forall s, printable s -> Forall plain (string_scalars s)).
  { intros s Hs. eapply Forall_impl; [exact Hs|]. intros c Hc. apply ascii_plain. exact Hc. }
  apply Forall_app_2; [|apply Forall_app_2; [exact Ha|apply Hp, printable_literal; reflexivity]].
  apply Hp.
  repeat first
    [ apply printable_literal; reflexivity
    | apply printable_pad0
    | apply printable_fmt_i32
    | apply printable_level_name
    | apply printable_app ].
Qed.

Lemma plain_scalars s : Forall plain s -> Forall (fun c => is_scalar c = true) s.
Proof. intros H. eapply Forall_impl; [exact H|]. intros c [Hc _]. exact Hc. Qed.

Lemma plain_nonzero s : Forall plain s -> Forall (fun c => c <> 0%Z) s.
Proof. intros H. eapply Forall_impl; [exact H|]. intros c [_ Hc]. exact Hc. Qed.

Lemma log_step max_level now r old :
  Forall plain old -> Forall plain (args r) ->
  log max_level now r (encode_utf16 old) =
    encode_utf16 (old ++ record_line max_level (now, r)).
Proof.
  intros Hold Ha. unfold log, record_line.
  destruct (enabled max_level (rec_level r) && is_our_path (module_path r)).
  - rewrite (decode_encode old (plain_scalars old Hold)).
    assert (Hm : Forall plain (format_message old (rec_level r) now (args r))).
    { unfold format_message. apply Forall_app_2; [exact Hold|].
      exact (format_message_plain (rec_level r) now (args r) Ha). }
    unfold utf16z. rewrite (upto_nul_encode _ (plain_scalars _ Hm)).
    rewrite (upto_nul_id _ (plain_nonzero _ Hm)). reflexivity.
  - rewrite app_nil_r. reflexivity.
Qed.

Lemma record_line_plain max_level ev :
  Forall plain (args (snd ev)) -> Forall plain (record_line max_level ev).
Proof.
  destruct ev as [now r]. cbn [snd]. intros Ha. unfold record_line.
  destruct (enabled max_level (rec_level r) && is_our_path (module_path r));
    [apply format_message_plain; exact Ha|constructor].
Qed.

Lemma log_all_spec max_level evs : forall old,
  Forall plain old ->
  Forall (fun ev => Forall plain (args (snd ev))) evs ->
  log_all max_level evs (encode_utf16 old) =
    encode_utf16 (old ++ concat (map (record_line max_level) evs)).
Proof.
  induction evs as [|[now r] evs IH]; intros old Hold Hevs.
  - cbn. rewrite app_nil_r. reflexivity.
  - inversion Hevs as [|? ? Hr Hrest]; subst. cbn [snd] in Hr.
    cbn [log_all map concat]. rewrite (log_step max_level now r old Hold Hr).
    rewrite IH.
    + rewrite app_assoc. reflexivity.
    + apply Forall_app_2; [exact Hold|]. exact (record_line_plain max_level (now, r) Hr).
    + exact Hrest.
Qed.

End LoggerProps.

(** X15: [utf16z!] of a string of Unicode scalars, read back as a wide C
    string (up to its first 0) and decoded, gives the string up to its
    first NUL: the whole string when it has no NUL. *)
Theorem utf16z_read_back s :
  Forall (fun c => Utf16.is_scalar c = true) s ->
  Utf16.decode_utf16_lossy (Utf16.upto_nul (Utf16.utf16z s)) = Utf16.upto_nul s.
Proof.
  intros H. unfold Utf16.utf16z. rewrite (upto_nul_encode s H).
  exact (decode_encode _ (upto_nul_scalars s H)).
Qed.

Lemma utf16z_read_back_witness :
  Utf16.decode_utf16_lossy (Utf16.upto_nul (Utf16.utf16z [77%Z; 128512%Z; 0%Z; 65%Z])) =
    [77%Z; 128512%Z].
Proof.
  apply (utf16z_read_back [77%Z; 128512%Z; 0%Z; 65%Z]).
  repeat constructor.
Defined.

(** X16: the edit control's text after a sequence of log records is the
    UTF-16 encoding of the text it started with followed by one formatted
    line per record that passes the filter (level at most the maximum,
    module path starting with "miniraw"); the other records change
    nothing.  This holds for texts and messages without NUL characters. *)
Theorem logger_text_accumulates max_level evs old :
  Forall plain old ->
  Forall (fun ev => Forall plain (Logger.args (snd ev))) evs ->
  Logger.log_all max_level evs (Utf16.encode_utf16 old) =
    Utf16.encode_utf16 (old ++ concat (map (Logger.record_line max_level) evs)).
Proof. intros Hold Hevs. exact (log_all_spec max_level evs old Hold Hevs). Qed.

Lemma logger_text_accumulates_witness :
  let t := Logger.mk_datetime 2026 10 16 7 3 9 45000000 in
  Logger.log_all Logger.FilterInfo
    [(t, Logger.mk_record Logger.Info (Some "miniraw::listener") (Utf16.string_scalars "hi"));
     (t, Logger.mk_record Logger.Info (Some "tokio::net") (Utf16.string_scalars "x"));
     (t, Logger.mk_record Logger.Debug (Some "miniraw") (Utf16.string_scalars "y"))]
    (Utf16.encode_utf16 []) =
  Utf16.encode_utf16 (Logger.format_message [] Logger.Info t (Utf16.string_scalars "hi")).
Proof.
  intros t.
  rewrite (logger_text_accumulates Logger.FilterInfo _ []).
  - reflexivity.
  - constructor.
  - repeat constructor; cbn; lia.
Defined.

(** X17: the month written in a log line is [time.month() as u8 + 1]:
    every line logged in December carries the date [<year>-13-<day>]. *)
Theorem logger_december_month_13 lvl t a :
  Logger.month t = 12 ->
  exists rest,
    Logger.format_message [] lvl t a =
      Utf16.string_scalars
        ("[" ++ Logger.level_name lvl ++ "] " ++ Logger.fmt_i32 (Logger.year t) ++ "-13-")%string
      ++ rest.
Proof.
  intros Hm. unfold Logger.format_message. rewrite Hm.
  eexists. cbn [app]. rewrite !string_scalars_app, <- !app_assoc. reflexivity.
Qed.

Lemma logger_december_month_13_witness :
  exists rest,
    Logger.format_message [] Logger.Info (Logger.mk_datetime 2026 12 5 7 3 9 0)
      (Utf16.string_scalars "hi") =
      Utf16.string_scalars "[INFO] 2026-13-" ++ rest.
Proof. exact (logger_december_month_13 Logger.Info (Logger.mk_datetime 2026 12 5 7 3 9 0) _ eq_refl). Defined.

(** ** Further properties: the build script *)

Section BuildProps.
Import BuildScript.

Lemma append_empty_r (s : string) : (s ++ EmptyString)%string = s.
Proof. induction s as [|c s IH]; [reflexivity|]. exact (f_equal (String c) IH). Qed.

Lemma split_dot_length s : length (split_dot s) = S (count_dots s).
Proof.
  induction s as [|c s IH]; [reflexivity|]. cbn [split_dot count_dots].
  destruct (Ascii.eqb c "."); cbn [length]; [rewrite IH; reflexivity|].
  destruct (split_dot s) as [|p ps]; cbn in *; lia.
Qed.

Lemma split_dot_no_dot x r :
  count_dots x = 0%nat ->
  split_dot (x ++ r) =
    match split_dot r with p :: ps => (x ++ p)%string :: ps | [] => [x] end.
Proof.
  induction x as [|c x IH]; intros H.
  - change ((EmptyString ++ r)%string) with r.
    pose proof (split_dot_length r) as Hl.
    destruct (split_dot r); [discriminate|reflexivity].
  - cbn [count_dots] in H. destruct (Ascii.eqb c ".") eqn:Hc; [cbn in H; discriminate|].
    simpl. rewrite Hc, IH by exact H.
    destruct (split_dot r); reflexivity.
Qed.

Lemma split_dot_field x r :
  count_dots x = 0%nat -> split_dot (x ++ String "." r) = x :: split_dot r.
Proof.
  intros H. rewrite split_dot_no_dot by exact H. simpl.
  rewrite append_empty_r. reflexivity.
Qed.

End BuildProps.

(** X18: a [VERSION] with fewer than two dots (fewer than three parts) gets
    the Windows version "0,0,0,0". *)
Theorem build_version_too_short v :
  (BuildScript.count_dots v < 2)%nat -> BuildScript.app_version_windows v = "0,0,0,0".
Proof.
  intros H. unfold BuildScript.app_version_windows.
  pose proof (split_dot_length v) as Hl.
  destruct (BuildScript.split_dot v) as [|p0 [|p1 [|p2 ps]]]; cbn in Hl; try reflexivity. lia.
Qed.

Lemma build_version_too_short_witness :
  BuildScript.app_version_windows "1.2" = "0,0,0,0".
Proof. apply build_version_too_short. cbn. lia. Defined.

(** X19: for [VERSION] = x.y.z, possibly followed by more dot-separated
    parts, the Windows version is "x,y,z,0": the three first parts are
    copied as they are (a pre-release suffix of z included) and the rest is
    dropped. *)
Theorem build_version_three_parts x y z rest :
  BuildScript.count_dots x = 0%nat -> BuildScript.count_dots y = 0%nat -> BuildScript.count_dots z = 0%nat ->
  rest = EmptyString \/ (exists r, rest = String "." r) ->
  BuildScript.app_version_windows (x ++ "." ++ y ++ "." ++ z ++ rest) =
    (x ++ "," ++ y ++ "," ++ z ++ ",0")%string.
Proof.
  intros Hx Hy Hz Hrest. unfold BuildScript.app_version_windows.
  change ((x ++ "." ++ y ++ "." ++ z ++ rest)%string)
    with ((x ++ String "." (y ++ String "." (z ++ rest)))%string).
  rewrite (split_dot_field x) by exact Hx.
  rewrite (split_dot_field y) by exact Hy.
  rewrite (split_dot_no_dot z) by exact Hz.
  destruct Hrest as [-> | (r & ->)].
  - cbn. rewrite append_empty_r. reflexivity.
  - simpl. rewrite append_empty_r. reflexivity.
Qed.

Lemma build_version_three_parts_witness :
  BuildScript.app_version_windows ("0" ++ "." ++ "4" ++ "." ++ "0-rc" ++ ".1") = "0,4,0-rc,0".
Proof.
  apply (build_version_three_parts "0" "4" "0-rc" ".1"); try reflexivity.
  right. exists "1". reflexivity.
Defined.
